(** * Data Model Diagram: the editor's state handling, verified

    A shallow embedding of the application component [FlowApp] (the
    diagram editor: table nodes, relationship edges, legend, export) and
    of the pieces of the JavaScript runtime its handlers rely on.

    JavaScript strings are sequences of UTF-16 code units, values are
    dynamically typed, and a handler may throw: the embedding keeps all
    three.  Functions of third-party libraries (the canvas library, the
    image renderer) and engine built-ins with no bearing on the handlers'
    logic (number formatting, JSON text) are the fields of the class
    [Platform]. *)

From Stdlib Require Import List String Ascii Bool Arith NArith Lia.
From Stdlib Require Import DecimalString DecimalN.
From Stdlib Require Import PrimFloat.
Import ListNotations.
Local Open Scope string_scope.
Local Open Scope list_scope.

(* ================================================================== *)
(** ** Strings *)

(** A code unit of a JavaScript string. *)
Definition code_unit := N.

(** A JavaScript string. *)
Definition jsstring := list code_unit.

(** A string literal of the source, as code units. *)
Definition str (s : string) : jsstring :=
  map N_of_ascii (list_ascii_of_string s).

Definition code_unit_eqb : code_unit -> code_unit -> bool := N.eqb.
Arguments code_unit_eqb : simpl never.

Fixpoint jsstring_eqb (s t : jsstring) : bool :=
  match s, t with
  | [], [] => true
  | a :: s', b :: t' => code_unit_eqb a b && jsstring_eqb s' t'
  | _, _ => false
  end.

(** [WhiteSpace] and [LineTerminator] of ECMAScript: what
    [String.prototype.trim] strips. *)
Definition is_whitespace (c : code_unit) : bool :=
  ((9 <=? c) && (c <=? 13)           (* TAB, LF, VT, FF, CR *)
   || (c =? 32) || (c =? 160)        (* space, no-break space *)
   || (c =? 5760)                    (* U+1680 *)
   || ((8192 <=? c) && (c <=? 8202)) (* U+2000 .. U+200A *)
   || (c =? 8232) || (c =? 8233)     (* line and paragraph separator *)
   || (c =? 8239) || (c =? 8287)     (* U+202F, U+205F *)
   || (c =? 12288) || (c =? 65279)   (* U+3000, U+FEFF *))%N.

Fixpoint trimStart (s : jsstring) : jsstring :=
  match s with
  | [] => []
  | c :: t => if is_whitespace c then trimStart t else s
  end.

Definition trimEnd (s : jsstring) : jsstring := rev (trimStart (rev s)).

(** [s.trim()] *)
Definition trim (s : jsstring) : jsstring := trimEnd (trimStart s).

Definition comma : code_unit := 44%N.

(** [s.split(',')]: the pieces between commas; never an empty array. *)
Fixpoint split_comma (s : jsstring) : list jsstring :=
  match s with
  | [] => [[]]
  | c :: t =>
      if code_unit_eqb c comma then [] :: split_comma t
      else match split_comma t with
           | piece :: rest => (c :: piece) :: rest
           | [] => [[c]]
           end
  end.

(** [pieces.join(sep)] on an array of strings. *)
Fixpoint join (sep : jsstring) (pieces : list jsstring) : jsstring :=
  match pieces with
  | [] => []
  | [p] => p
  | p :: rest => p ++ sep ++ join sep rest
  end.

(** The decimal digits of a non-negative integer, as a template literal
    prints an integral number such as [Date.now()]. *)
Definition decimal (n : N) : jsstring :=
  str (NilEmpty.string_of_uint (N.to_uint n)).

(* ================================================================== *)
(** ** The column-tag patterns *)

(** Case folding of a regular expression with the [i] flag and without
    the [u] flag: a code unit is compared through its upper-case form,
    and a code unit outside ASCII never folds into ASCII.  On the
    characters of the tag patterns only the ASCII letters matter. *)
Definition canonicalize (c : code_unit) : code_unit :=
  if ((97 <=? c) && (c <=? 122))%N then (c - 32)%N else c.

(** The literal [lit] matches, ignoring case, at the start of [s]. *)
Fixpoint matches_at (lit s : jsstring) : bool :=
  match lit, s with
  | [], _ => true
  | _ :: _, [] => false
  | a :: lit', b :: s' =>
      code_unit_eqb (canonicalize a) (canonicalize b) && matches_at lit' s'
  end.

(** [/lit/i.test(s)] for a pattern that is one literal. *)
Fixpoint regex_test (lit s : jsstring) : bool :=
  matches_at lit s ||
  match s with
  | [] => false
  | _ :: t => regex_test lit t
  end.

(** The alternatives of [/\((pk|fk|ck)\)/gi], in the order tried. *)
Definition tag_literals : list jsstring :=
  [str "(pk)"; str "(fk)"; str "(ck)"].

(** The tag found at the start of [s] by [/\((pk|fk|ck)\)/i], if any. *)
Definition tag_at (s : jsstring) : option jsstring :=
  find (fun lit => matches_at lit s) tag_literals.

(** [s.replace(/\((pk|fk|ck)\)/gi, '')]: scan from the left; where a tag
    starts, drop it whole and go on after it.  [skip] counts the code
    units of the current match that are still to be dropped. *)
Fixpoint replace_tags_from (skip : nat) (s : jsstring) : jsstring :=
  match s with
  | [] => []
  | c :: t =>
      match skip with
      | S k => replace_tags_from k t
      | O =>
          match tag_at s with
          | Some lit => replace_tags_from (pred (List.length lit)) t
          | None => c :: replace_tags_from O t
          end
      end
  end.

Definition replace_tags (s : jsstring) : jsstring := replace_tags_from 0 s.

(* ================================================================== *)
(** ** Values, exceptions, property access *)

(** The two handlers the editor hands to every node as [data.onDelete]
    and [data.onEdit]. *)
Inductive callback : Type := OnDeleteNode | OnStartEdit.

(** A JavaScript value.  An object is its own properties in insertion
    order; numbers are binary64 floats. *)
Unset Elimination Schemes.
Inductive value : Type :=
| VUndefined
| VNull
| VBool (b : bool)
| VNum (n : float)
| VStr (s : jsstring)
| VFun (f : callback)
| VArr (elems : list value)
| VObj (props : list (string * value)).
Set Elimination Schemes.

Inductive exn : Type :=
| TypeError      (* a property of null or undefined, a call of a non-function *)
| SyntaxError    (* JSON.parse on malformed text *)
| LibraryError.  (* thrown or rejected by a third-party function *)

Inductive result (A : Type) : Type :=
| Ok (a : A)
| Throw (e : exn).
Arguments Ok {A} a.
Arguments Throw {A} e.

Definition bind {A B} (r : result A) (k : A -> result B) : result B :=
  match r with
  | Ok a => k a
  | Throw e => Throw e
  end.

Notation "x <- r ;; k" := (bind r (fun x => k))
  (at level 61, r at next level, right associativity).

(** [try { body } catch { handler }] *)
Definition try_catch {A} (body : result A) (handler : exn -> A) : A :=
  match body with
  | Ok a => a
  | Throw e => handler e
  end.

(** Callbacks of [map] and [filter] run left to right; the first throw
    ends the loop. *)
Fixpoint mapM {A B} (f : A -> result B) (l : list A) : result (list B) :=
  match l with
  | [] => Ok []
  | x :: t => y <- f x ;; ys <- mapM f t ;; Ok (y :: ys)
  end.

Fixpoint filterM {A} (p : A -> result bool) (l : list A) : result (list A) :=
  match l with
  | [] => Ok []
  | x :: t => b <- p x ;; ys <- filterM p t ;; Ok (if b then x :: ys else ys)
  end.

Fixpoint lookup (k : string) (props : list (string * value)) : option value :=
  match props with
  | [] => None
  | (k', v) :: rest => if String.eqb k k' then Some v else lookup k rest
  end.

(** Defining property [k]: an existing property keeps its place. *)
Fixpoint set_prop (k : string) (v : value) (props : list (string * value))
  : list (string * value) :=
  match props with
  | [] => [(k, v)]
  | (k', v') :: rest =>
      if String.eqb k k' then (k, v) :: rest else (k', v') :: set_prop k v rest
  end.

(** The index keys ["0"], ["1"], ... of an array or a string. *)
Definition index_key (i : nat) : string :=
  NilEmpty.string_of_uint (Nat.to_uint i).

Definition indexed (elems : list value) : list (string * value) :=
  combine (map index_key (seq 0 (List.length elems))) elems.

(** The own enumerable properties of a value: what [{...v}] copies. *)
Definition own_props (v : value) : list (string * value) :=
  match v with
  | VObj props => props
  | VArr elems => indexed elems
  | VStr s => indexed (map (fun c => VStr [c]) s)
  | _ => []
  end.

Definition nullish (v : value) : bool :=
  match v with
  | VUndefined | VNull => true
  | _ => false
  end.

(** The number [n], for an array or string length. *)
Fixpoint number_of_nat (n : nat) : float :=
  match n with
  | O => 0%float
  | S k => (number_of_nat k + 1)%float
  end.

(** The number of parameters of a handler. *)
Definition arity (f : callback) : nat :=
  match f with
  | OnDeleteNode => 1
  | OnStartEdit => 2
  end.

(** [v.k] for a data property [k].  Reading from null or undefined
    throws.  An array and a string have their length and their indices,
    a handler its (empty) name and its number of parameters.  Inherited
    members are not data: the methods of arrays are reached through the
    calls below, and no handler reads any other. *)
Definition get (v : value) (k : string) : result value :=
  match v with
  | VUndefined | VNull => Throw TypeError
  | VObj props =>
      Ok (match lookup k props with Some x => x | None => VUndefined end)
  | VArr _ | VStr _ =>
      if String.eqb k "length" then
        Ok (VNum (number_of_nat (List.length (own_props v))))
      else
        Ok (match lookup k (own_props v) with Some x => x | None => VUndefined end)
  | VFun f =>
      if String.eqb k "name" then Ok (VStr [])
      else if String.eqb k "length" then Ok (VNum (number_of_nat (arity f)))
      else Ok VUndefined
  | VNum _ | VBool _ => Ok VUndefined
  end.

(** [v === s] for a string [s]. *)
Definition is_string (v : value) (s : jsstring) : bool :=
  match v with
  | VStr t => jsstring_eqb t s
  | _ => false
  end.

(** ToBoolean.  A number is falsy when it is zero or NaN. *)
Definition truthy (v : value) : bool :=
  match v with
  | VUndefined | VNull => false
  | VBool b => b
  | VNum n => negb (PrimFloat.eqb n 0 || PrimFloat.is_nan n)
  | VStr s => negb (jsstring_eqb s [])
  | VFun _ | VArr _ | VObj _ => true
  end.

Definition isArray (v : value) : bool :=
  match v with
  | VArr _ => true
  | _ => false
  end.

(** [{...base, k1: v1, k2: v2, ...}] *)
Definition object_literal (base defs : list (string * value))
  : list (string * value) :=
  fold_left (fun props kv => set_prop (fst kv) (snd kv) props) defs base.

(** [v.length === 0].  The length of an array or of a string is
    compared as the natural number it is. *)
Definition length_is_zero (v : value) : result bool :=
  match v with
  | VArr elems => Ok (Nat.eqb (List.length elems) 0)
  | VStr s => Ok (Nat.eqb (List.length s) 0)
  | _ =>
      len <- get v "length" ;;
      Ok (match len with
          | VNum n => PrimFloat.eqb n 0
          | _ => false
          end)
  end.

(* ================================================================== *)
(** ** The column parser of [addTable] *)

(** The object a piece of schema text becomes. *)
Definition column_of_item (item : jsstring) : value :=
  VObj [("name", VStr (trim (replace_tags item)));
        ("isPK", VBool (regex_test (str "(pk)") item));
        ("isFK", VBool (regex_test (str "(fk)") item));
        ("isCK", VBool (regex_test (str "(ck)") item))].

(** [schemaText.split(',').map(trim).filter(i => i !== "").map(...)] *)
Definition parse_columns (schemaText : jsstring) : list value :=
  map column_of_item
    (filter (fun i => negb (jsstring_eqb i []))
       (map trim (split_comma schemaText))).

(* ================================================================== *)
(** ** Application state *)

Record AppState : Type := {
  nodes : value;
  edges : value;
  tableName : value;
  schemaText : jsstring;
  selectedColor : value;
  relType : jsstring;
  edgeToDelete : jsstring;
  editingNodeId : option jsstring;   (* [null] or a node id *)
  legend : value
}.

Definition set_nodes (v : value) (st : AppState) : AppState :=
  {| nodes := v; edges := edges st; tableName := tableName st;
     schemaText := schemaText st; selectedColor := selectedColor st;
     relType := relType st; edgeToDelete := edgeToDelete st;
     editingNodeId := editingNodeId st; legend := legend st |}.

Definition set_edges (v : value) (st : AppState) : AppState :=
  {| nodes := nodes st; edges := v; tableName := tableName st;
     schemaText := schemaText st; selectedColor := selectedColor st;
     relType := relType st; edgeToDelete := edgeToDelete st;
     editingNodeId := editingNodeId st; legend := legend st |}.

Definition set_tableName (v : value) (st : AppState) : AppState :=
  {| nodes := nodes st; edges := edges st; tableName := v;
     schemaText := schemaText st; selectedColor := selectedColor st;
     relType := relType st; edgeToDelete := edgeToDelete st;
     editingNodeId := editingNodeId st; legend := legend st |}.

Definition set_schemaText (s : jsstring) (st : AppState) : AppState :=
  {| nodes := nodes st; edges := edges st; tableName := tableName st;
     schemaText := s; selectedColor := selectedColor st;
     relType := relType st; edgeToDelete := edgeToDelete st;
     editingNodeId := editingNodeId st; legend := legend st |}.

Definition set_selectedColor (v : value) (st : AppState) : AppState :=
  {| nodes := nodes st; edges := edges st; tableName := tableName st;
     schemaText := schemaText st; selectedColor := v;
     relType := relType st; edgeToDelete := edgeToDelete st;
     editingNodeId := editingNodeId st; legend := legend st |}.

Definition set_relType (s : jsstring) (st : AppState) : AppState :=
  {| nodes := nodes st; edges := edges st; tableName := tableName st;
     schemaText := schemaText st; selectedColor := selectedColor st;
     relType := s; edgeToDelete := edgeToDelete st;
     editingNodeId := editingNodeId st; legend := legend st |}.

Definition set_edgeToDelete (s : jsstring) (st : AppState) : AppState :=
  {| nodes := nodes st; edges := edges st; tableName := tableName st;
     schemaText := schemaText st; selectedColor := selectedColor st;
     relType := relType st; edgeToDelete := s;
     editingNodeId := editingNodeId st; legend := legend st |}.

Definition set_editingNodeId (o : option jsstring) (st : AppState) : AppState :=
  {| nodes := nodes st; edges := edges st; tableName := tableName st;
     schemaText := schemaText st; selectedColor := selectedColor st;
     relType := relType st; edgeToDelete := edgeToDelete st;
     editingNodeId := o; legend := legend st |}.

Definition set_legend (v : value) (st : AppState) : AppState :=
  {| nodes := nodes st; edges := edges st; tableName := tableName st;
     schemaText := schemaText st; selectedColor := selectedColor st;
     relType := relType st; edgeToDelete := edgeToDelete st;
     editingNodeId := editingNodeId st; legend := v |}.

Definition legend_item (id name hex : string) : value :=
  VObj [("id", VStr (str id)); ("name", VStr (str name)); ("hex", VStr (str hex))].

Definition INITIAL_LEGEND : value :=
  VArr [legend_item "1" "Reporting" "#fbbf24";
        legend_item "2" "Warehouse" "#94a3b8";
        legend_item "3" "Staging" "#cd7f32";
        legend_item "4" "Refined" "#10b981";
        legend_item "5" "Sensitive" "#f43f5e";
        legend_item "6" "External" "#a855f7";
        legend_item "7" "Master Data" "#3b82f6";
        legend_item "8" "Audit/Logs" "#64748b";
        legend_item "9" "Temporary" "#ec4899";
        legend_item "10" "Archive" "#0f172a"].

(** [localStorage]: the text kept under each key, if any. *)
Definition storage := string -> option jsstring.

(** What a handler does besides updating the state. *)
Inductive download_source : Type :=
| BlobUrl (content mime : jsstring)   (* an object URL of a new Blob *)
| DataUrl (url : jsstring).

Inductive effect : Type :=
| StorageSet (key : string) (text : jsstring)      (* localStorage.setItem *)
| Download (href : download_source) (name : jsstring)  (* click on a download link *)
| ConsoleError (e : exn)
| Alert (msg : jsstring).

(* ================================================================== *)
(** ** Image export: what is handed to the renderer *)

(** The rectangle [getNodesBounds] returns. *)
Record rect : Type := {
  rect_x : float; rect_y : float; rect_width : float; rect_height : float
}.

(** An object literal of style declarations, as the [style] option of
    the renderer is. *)
Definition style := list (string * jsstring).

(** The elements [onClone] reaches in the cloned document. *)
Inductive clone_element : Type :=
| Viewport          (* [querySelector('.react-flow__viewport')] *)
| LegendPanel       (* [querySelector('.react-flow__panel')] *)
| PanelFirstChild.  (* [panel.firstChild] *)

(** An assignment [element.style.property = value].  What the browser
    makes of an assignment (a shorthand resets its longhands, an invalid
    value is dropped) is the browser's business: the callback is modelled
    by the assignments it makes, in order. *)
Record style_assignment : Type := {
  target : clone_element;
  property : string;
  assigned : jsstring
}.

(** The first child of the panel: none, an element, or a node that has
    no [style], such as a text node. *)
Inductive first_child : Type := NoChild | ElementChild | StylelessChild.

(** What the look-ups of [onClone] find in the cloned document: whether
    there is a viewport, and the first child of the panel if there is a
    panel. *)
Record cloned_document : Type := {
  viewport : bool;
  panel : option first_child
}.

Record export_options : Type := {
  backgroundColor : jsstring;
  opt_width : float;
  opt_height : float;
  opt_style : style;
  onClone : cloned_document -> list style_assignment * option exn;
  opt_filter : option (list jsstring) -> bool  (* on a node's class list *)
}.

Definition legendBuffer : float := 300%float.
Definition margin : float := 100%float.

Definition exportWidth (bounds : rect) : float :=
  (rect_width bounds + legendBuffer + (margin * 2))%float.

Definition exportHeight (bounds : rect) : float :=
  (rect_height bounds + (margin * 2))%float.

(** The [filter] option: drop the controls and the attribution. *)
Definition export_filter (classList : option (list jsstring)) : bool :=
  negb (existsb
          (fun cls =>
             match classList with
             | Some classes => existsb (jsstring_eqb cls) classes
             | None => false
             end)
          [str "react-flow__controls"; str "react-flow__attribution"]).

(* ================================================================== *)
(** ** Vocabulary of the specification *)

(** Two code units that differ at most by the case of an ASCII letter. *)
Definition eq_ignoring_case (a b : code_unit) : Prop :=
  (a = b \/ (65 <= a <= 90 /\ b = a + 32) \/ (65 <= b <= 90 /\ a = b + 32))%N.

(** [lit] is a substring of [s]. *)
Definition occurs (lit s : jsstring) : Prop :=
  exists pre post, s = pre ++ lit ++ post.

(** [lit] is a substring of [s] up to letter case. *)
Definition occurs_ignoring_case (lit s : jsstring) : Prop :=
  exists pre m post, s = pre ++ m ++ post /\ Forall2 eq_ignoring_case m lit.

(** One of the three tags starts at the head of [s], in any letter case. *)
Definition tag_here (s : jsstring) : bool :=
  existsb (fun lit => matches_at lit s) tag_literals.

(** A tag occurrence starts at position [i] of [piece]. *)
Definition tag_starts (piece : jsstring) (i : nat) : bool :=
  tag_here (skipn i piece).

(** Position [j] of [piece] lies inside a tag occurrence: one starts at
    [j], [j-1], [j-2] or [j-3]. *)
Definition inside_tag (piece : jsstring) (j : nat) : bool :=
  existsb (fun d => Nat.leb d j && tag_starts piece (j - d)) (seq 0 4).

(** The code units of [s] whose position, counted from [start],
    satisfies [keep]. *)
Fixpoint keep_positions (start : nat) (keep : nat -> bool) (s : jsstring)
  : jsstring :=
  match s with
  | [] => []
  | c :: t =>
      if keep start then c :: keep_positions (S start) keep t
      else keep_positions (S start) keep t
  end.

(** [piece] with every tag occurrence removed. *)
Definition without_tags (piece : jsstring) : jsstring :=
  keep_positions 0 (fun j => negb (inside_tag piece j)) piece.

(** What the scan knows at position [pos]: with nothing left to skip, no
    tag started at the three positions before; otherwise the tag being
    skipped started [4 - skip] positions before. *)
Definition scan_invariant (piece : jsstring) (pos skip : nat) : Prop :=
  match skip with
  | O => forall d, 1 <= d <= 3 -> d <= pos -> tag_starts piece (pos - d) = false
  | S _ =>
      skip <= 3 /\ 4 - skip <= pos /\ tag_starts piece (pos - (4 - skip)) = true
  end.

(** A suffix that takes no part in a tag match that starts before it. *)
Definition inert (sfx : jsstring) : Prop :=
  forall lit x, In lit tag_literals -> matches_at lit (x ++ sfx) = matches_at lit x.

Definition clone_element_eqb (a b : clone_element) : bool :=
  match a, b with
  | Viewport, Viewport | LegendPanel, LegendPanel
  | PanelFirstChild, PanelFirstChild => true
  | _, _ => false
  end.

(** The assignments made to one element, in order, as pairs of a
    property and a value. *)
Definition assignments_to (el : clone_element) (made : list style_assignment)
  : list (string * jsstring) :=
  map (fun a => (property a, assigned a))
    (filter (fun a => clone_element_eqb (target a) el) made).

(** A column as the specification describes it. *)
Record column : Type := {
  name : jsstring;
  isPK : bool;
  isFK : bool;
  isCK : bool
}.

(** The object that carries a column in a node. *)
Definition column_value (c : column) : value :=
  VObj [("name", VStr (name c)); ("isPK", VBool (isPK c));
        ("isFK", VBool (isFK c)); ("isCK", VBool (isCK c))].

(** The code units a trim strips: the white space and the line
    terminators of ECMAScript, one by one. *)
Definition whitespace_code_units : list code_unit :=
  [9; 10; 11; 12; 13; 32; 160; 5760;
   8192; 8193; 8194; 8195; 8196; 8197; 8198; 8199; 8200; 8201; 8202;
   8232; 8233; 8239; 8287; 12288; 65279]%N.

Definition blank (s : jsstring) : Prop :=
  Forall (fun c => In c whitespace_code_units) s.

(** [t] is [s] trimmed: [s] without the white space at its two ends. *)
Definition trimmed (s t : jsstring) : Prop :=
  exists pre post,
    s = pre ++ t ++ post /\ blank pre /\ blank post /\
    (forall c r, t = c :: r -> ~ In c whitespace_code_units) /\
    (forall r c, t = r ++ [c] -> ~ In c whitespace_code_units).

(** Position [j] of [piece] belongs to an occurrence of [(pk)], [(fk)] or
    [(ck)], in any letter case. *)
Definition in_tag_occurrence (piece : jsstring) (j : nat) : Prop :=
  exists lit pre m post,
    In lit [str "(pk)"; str "(fk)"; str "(ck)"] /\
    piece = pre ++ m ++ post /\
    Forall2 eq_ignoring_case m lit /\
    List.length pre <= j < List.length pre + List.length m.

(** [rest] is [piece] with every tag occurrence removed: the code units
    of [piece], in order, that belong to no occurrence.  [kept] marks
    them. *)
Definition tags_removed (piece rest : jsstring) : Prop :=
  exists kept : list bool,
    List.length kept = List.length piece /\
    (forall j, j < List.length piece ->
       (nth j kept true = false <-> in_tag_occurrence piece j)) /\
    rest = map fst (filter snd (combine piece kept)).

(** The column the specification assigns to a piece of schema text. *)
Definition column_of_piece (piece : jsstring) (c : column) : Prop :=
  (isPK c = true <-> occurs_ignoring_case (str "(pk)") piece) /\
  (isFK c = true <-> occurs_ignoring_case (str "(fk)") piece) /\
  (isCK c = true <-> occurs_ignoring_case (str "(ck)") piece) /\
  exists rest, tags_removed piece rest /\ trimmed rest (name c).

(** No whitespace at either end. *)
Definition no_outer_whitespace (s : jsstring) : Prop :=
  (forall c t, s = c :: t -> is_whitespace c = false) /\
  (forall t c, s = t ++ [c] -> is_whitespace c = false).

Definition at_most_one_flag (c : column) : Prop :=
  Nat.b2n (isPK c) + Nat.b2n (isFK c) + Nat.b2n (isCK c) <= 1.

(** A column whose name has none of the three tags as a substring,
    letter for letter. *)
Definition plain_column (c : column) : Prop :=
  at_most_one_flag c /\
  name c <> [] /\
  ~ In comma (name c) /\
  (forall lit, In lit tag_literals -> ~ occurs lit (name c)) /\
  no_outer_whitespace (name c).

(** A column whose name has none of the three tags as a substring in any
    letter case. *)
Definition tag_free_column (c : column) : Prop :=
  at_most_one_flag c /\
  name c <> [] /\
  ~ In comma (name c) /\
  (forall lit, In lit tag_literals -> ~ occurs_ignoring_case lit (name c)) /\
  no_outer_whitespace (name c).

(** An array, none of whose elements is null or undefined. *)
Definition array_of (elems : list value) (v : value) : Prop :=
  v = VArr elems /\ forallb (fun e => negb (nullish e)) elems = true.

(** Property [k] of [v] is the string [s]. *)
Definition has_string (k : string) (s : jsstring) (v : value) : bool :=
  match get v k with
  | Ok x => is_string x s
  | Throw _ => false
  end.

(** The tag the schema field shows after a column name. *)
Definition tag_suffix (c : column) : jsstring :=
  if isPK c then str " (pk)"
  else if isFK c then str " (fk)"
  else if isCK c then str " (ck)"
  else [].

(** A column as the schema field shows it. *)
Definition column_shown (c : column) : jsstring := name c ++ tag_suffix c.

(** A library function that, given an array as its second argument,
    returns an array whenever it returns. *)
Definition keeps_arrays (f : value -> value -> result value) : Prop :=
  forall a v r, isArray v = true -> f a v = Ok r -> isArray r = true.

(** The conditions on a name under which it comes back from the schema
    field. *)
Definition tag_free_name (n : jsstring) : Prop :=
  n <> [] /\
  ~ In comma n /\
  (forall lit, In lit tag_literals -> ~ occurs_ignoring_case lit n) /\
  no_outer_whitespace n.

(** A column with the first of its flags only, in the order primary,
    foreign, composite: what the schema field can show of it. *)
Definition strongest_flag (c : column) : column :=
  {| name := name c;
     isPK := isPK c;
     isFK := negb (isPK c) && isFK c;
     isCK := negb (isPK c) && negb (isFK c) && isCK c |}.

(** *** Deciding the side conditions *)

(** [s.startsWith(lit)] and [s.includes(lit)], letter for letter. *)
Fixpoint starts_with (lit s : jsstring) : bool :=
  match lit, s with
  | [], _ => true
  | _ :: _, [] => false
  | a :: lit', b :: s' => code_unit_eqb a b && starts_with lit' s'
  end.

Fixpoint contains (lit s : jsstring) : bool :=
  starts_with lit s ||
  match s with
  | [] => false
  | _ :: t => contains lit t
  end.

Definition clean_edges (s : jsstring) : bool :=
  match s with
  | c :: _ => negb (is_whitespace c)
  | [] => true
  end
  && match rev s with
     | c :: _ => negb (is_whitespace c)
     | [] => true
     end.

(** The conditions on a column that do not depend on how a tag is
    looked for in its name. *)
Definition well_shaped (c : column) : bool :=
  Nat.leb (Nat.b2n (isPK c) + Nat.b2n (isFK c) + Nat.b2n (isCK c)) 1
  && negb (jsstring_eqb (name c) [])
  && negb (existsb (code_unit_eqb comma) (name c))
  && clean_edges (name c).

Definition plain_columnb (c : column) : bool :=
  well_shaped c
  && forallb (fun lit => negb (contains lit (name c))) tag_literals.

Definition tag_free_columnb (c : column) : bool :=
  well_shaped c
  && forallb (fun lit => negb (regex_test lit (name c))) tag_literals.

(* ================================================================== *)
(** ** The platform *)

(** What the editor takes from the engine and from third-party
    libraries. *)
Class Platform : Type := {
  (** ToString of a number, and of an object, array or function. *)
  Number_toString : float -> jsstring;
  Object_toString : value -> result jsstring;
  (** [JSON.parse(text)] and [JSON.stringify(v, null, space)]. *)
  JSON_parse : jsstring -> result value;
  JSON_stringify : value -> nat -> jsstring;
  (** The canvas library. *)
  addEdge : value -> value -> result value;
  applyNodeChanges : value -> value -> result value;
  applyEdgeChanges : value -> value -> result value;
  getNodesBounds : value -> result rect;
  MarkerType_ArrowClosed : value;
  (** The image renderer, on the canvas element; a rejected promise is a
      throw at the [await]. *)
  dom_element : Type;
  toSvg : dom_element -> export_options -> result jsstring;
  toPng : dom_element -> export_options -> result jsstring
}.

(* ================================================================== *)
(** ** A platform to run examples on *)

Definition demo_Number_toString (n : float) : jsstring := str "0".

Definition demo_Object_toString (v : value) : result jsstring :=
  Ok (str "[object Object]").

(** Parses the empty array, the empty object and [null]. *)
Definition demo_JSON_parse (text : jsstring) : result value :=
  if jsstring_eqb text (str "[]") then Ok (VArr [])
  else if jsstring_eqb text (str "{}") then Ok (VObj [])
  else if jsstring_eqb text (str "null") then Ok VNull
  else Throw SyntaxError.

Definition demo_JSON_stringify (v : value) (space : nat) : jsstring :=
  match v with
  | VArr [] => str "[]"
  | VNull => str "null"
  | _ => str "{}"
  end.

(** Appends the edge when the edges are an array. *)
Definition demo_addEdge (edge eds : value) : result value :=
  match eds with
  | VArr elems => Ok (VArr (elems ++ [edge]))
  | _ => Throw TypeError
  end.

(** Applies no change. *)
Definition demo_applyChanges (changes elems : value) : result value :=
  Ok elems.

Definition demo_getNodesBounds (nds : value) : result rect :=
  Ok {| rect_x := 0; rect_y := 0; rect_width := 220; rect_height := 80 |}.

Definition demo_toSvg (el : unit) (options : export_options) : result jsstring :=
  Ok (str "data:image/svg+xml;charset=utf-8,").

(** A renderer that fails. *)
Definition demo_toPng (el : unit) (options : export_options) : result jsstring :=
  Throw LibraryError.

(** A diagram of two tables and the relationship between them, with the
    form filled in to update the first table. *)
Definition demo_node (id label : string) : value :=
  VObj [("id", VStr (str id));
        ("type", VStr (str "tableNode"));
        ("position", VObj [("x", VNum 350); ("y", VNum 150)]);
        ("data", VObj [("label", VStr (str label));
                       ("columns", VArr []);
                       ("color", VStr (str "#fbbf24"))])].

Definition demo_edge (id source target : string) : value :=
  VObj [("source", VStr (str source)); ("target", VStr (str target));
        ("id", VStr (str id))].

Definition demo_state : AppState :=
  {| nodes := VArr [demo_node "node_1" "users"; demo_node "node_2" "orders"];
     edges := VArr [demo_edge "e-3" "node_1" "node_2"];
     tableName := VStr (str "accounts");
     schemaText := str "id (pk), owner_id (fk)";
     selectedColor := VStr (str "#10b981");
     relType := str "1:N";
     edgeToDelete := str "e-3";
     editingNodeId := Some (str "node_1");
     legend := INITIAL_LEGEND |}.


(** A column whose name carries a tag in upper case. *)
Definition upper_case_tag_column : column :=
  {| name := str "x(PK)"; isPK := false; isFK := false; isCK := false |}.

Definition demo_columns : list column :=
  [{| name := str "id"; isPK := true; isFK := false; isCK := false |};
   {| name := str "owner id"; isPK := false; isFK := true; isCK := false |};
   {| name := str "note"; isPK := false; isFK := false; isCK := false |}].

(** The data of a table that has the three example columns. *)
Definition demo_data : value :=
  VObj [("label", VStr (str "orders"));
        ("columns", VArr (map column_value demo_columns));
        ("color", VStr (str "#94a3b8"))].

(** The nodes of the example diagram once the handlers are attached. *)
Definition demo_mounted_node (id label : string) : value :=
  VObj [("id", VStr (str id));
        ("type", VStr (str "tableNode"));
        ("position", VObj [("x", VNum 350); ("y", VNum 150)]);
        ("data", VObj [("label", VStr (str label));
                       ("columns", VArr []);
                       ("color", VStr (str "#fbbf24"));
                       ("onDelete", VFun OnDeleteNode);
                       ("onEdit", VFun OnStartEdit)])].

Definition demo_mounted_state : AppState :=
  set_nodes
    (VArr [demo_mounted_node "node_1" "users"; demo_mounted_node "node_2" "orders"])
    demo_state.

(** Columns that carry more than one flag. *)
Definition demo_flagged_columns : list column :=
  [{| name := str "id"; isPK := true; isFK := true; isCK := false |};
   {| name := str "code"; isPK := false; isFK := true; isCK := true |};
   {| name := str "note"; isPK := false; isFK := false; isCK := false |}].

Definition demo_flagged_data : value :=
  VObj [("label", VStr (str "orders"));
        ("columns", VArr (map column_value demo_flagged_columns));
        ("color", VStr (str "#94a3b8"))].

(** Saved nodes that are an empty array, saved edges that are not an
    array, no saved legend. *)
Definition demo_storage : storage :=
  fun key =>
    if String.eqb key "nodes" then Some (str "[]")
    else if String.eqb key "edges" then Some (str "{}")
    else None.

Definition demo_platform : Platform :=
  {| Number_toString := demo_Number_toString;
     Object_toString := demo_Object_toString;
     JSON_parse := demo_JSON_parse;
     JSON_stringify := demo_JSON_stringify;
     addEdge := demo_addEdge;
     applyNodeChanges := demo_applyChanges;
     applyEdgeChanges := demo_applyChanges;
     getNodesBounds := demo_getNodesBounds;
     MarkerType_ArrowClosed := VStr (str "arrowclosed");
     dom_element := unit;
     toSvg := demo_toSvg;
     toPng := demo_toPng |}.

(* ================================================================== *)
(** ** The editor *)

Section Editor.

Context {platform : Platform}.

(** *** Conversions and array methods *)

(** ToString, as a template literal applies it. *)
Definition to_string (v : value) : result jsstring :=
  match v with
  | VUndefined => Ok (str "undefined")
  | VNull => Ok (str "null")
  | VBool true => Ok (str "true")
  | VBool false => Ok (str "false")
  | VNum n => Ok (Number_toString n)
  | VStr s => Ok s
  | VFun _ | VArr _ | VObj _ => Object_toString v
  end.

(** [recv.map(f)] *)
Definition array_map (f : value -> result value) (recv : value) : result value :=
  match recv with
  | VArr elems => ys <- mapM f elems ;; Ok (VArr ys)
  | _ => Throw TypeError
  end.

(** [recv.filter(p)] *)
Definition array_filter (p : value -> result bool) (recv : value) : result value :=
  match recv with
  | VArr elems => ys <- filterM p elems ;; Ok (VArr ys)
  | _ => Throw TypeError
  end.

(** [recv.concat(item)]: an array argument is spliced in; a string
    receiver has the method of strings. *)
Definition array_concat (recv item : value) : result value :=
  match recv with
  | VArr elems =>
      Ok (VArr (elems ++ match item with VArr xs => xs | _ => [item] end))
  | VStr s => t <- to_string item ;; Ok (VStr (s ++ t))
  | _ => Throw TypeError
  end.

(** [recv.join(sep)]: null and undefined elements print as nothing. *)
Definition array_join (sep : jsstring) (recv : value) : result value :=
  match recv with
  | VArr elems =>
      strs <- mapM (fun e => if nullish e then Ok [] else to_string e) elems ;;
      Ok (VStr (join sep strs))
  | _ => Throw TypeError
  end.

(** *** Start-up *)

(** The initializer of [nodes] and of [edges], on the text saved under
    the key. *)
Definition initial_array (saved : option jsstring) : value :=
  try_catch
    (parsed <- match saved with
               | Some s => if truthy (VStr s) then JSON_parse s else Ok (VArr [])
               | None => Ok (VArr [])
               end ;;
     Ok (if isArray parsed then parsed else VArr []))
    (fun _ => VArr []).

Definition initial_legend (saved : option jsstring) : value :=
  try_catch
    (match saved with
     | Some s => if truthy (VStr s) then JSON_parse s else Ok INITIAL_LEGEND
     | None => Ok INITIAL_LEGEND
     end)
    (fun _ => INITIAL_LEGEND).

Definition initialState (localStorage : storage) : AppState :=
  {| nodes := initial_array (localStorage "nodes");
     edges := initial_array (localStorage "edges");
     tableName := VStr [];
     schemaText := [];
     selectedColor := VStr (str "#fbbf24");
     relType := str "1:N";
     edgeToDelete := [];
     editingNodeId := None;
     legend := initial_legend (localStorage "legend") |}.

(** *** Handlers *)

Definition handleRenameLegend (id newName : jsstring) (st : AppState)
  : result (AppState * list effect) :=
  updated <- array_map
               (fun item =>
                  i <- get item "id" ;;
                  Ok (if is_string i id
                      then VObj (object_literal (own_props item)
                                   [("name", VStr newName)])
                      else item))
               (legend st) ;;
  Ok (set_legend updated st, [StorageSet "legend" (JSON_stringify updated 0)]).

Definition onDeleteNode (id : jsstring) (st : AppState) : result AppState :=
  nds <- array_filter
           (fun n => i <- get n "id" ;; Ok (negb (is_string i id)))
           (nodes st) ;;
  eds <- array_filter
           (fun e =>
              s <- get e "source" ;;
              if negb (is_string s id)
              then t <- get e "target" ;; Ok (negb (is_string t id))
              else Ok false)
           (edges st) ;;
  Ok (set_edges eds (set_nodes nds st)).

(** The text a column is shown as in the schema field. *)
Definition column_text (c : value) : result value :=
  pk <- get c "isPK" ;;
  tag <- (if truthy pk then Ok (str " (pk)")
          else fk <- get c "isFK" ;;
               if truthy fk then Ok (str " (fk)")
               else ck <- get c "isCK" ;;
                    if truthy ck then Ok (str " (ck)") else Ok []) ;;
  name <- get c "name" ;;
  shown <- to_string name ;;
  Ok (VStr (shown ++ tag)).

(** [data.columns?.map(...).join(', ') || ''] *)
Definition schema_text_of (data : value) : result jsstring :=
  columns <- get data "columns" ;;
  text <- (if nullish columns then Ok VUndefined
           else shown <- array_map column_text columns ;;
                array_join (str ", ") shown) ;;
  Ok (match text with
      | VStr s => s
      | _ => []
      end).

(** An exception in the body of this handler leaves the updates made
    before it in place. *)
Definition onStartEdit (id : jsstring) (data : value) (st : AppState)
  : AppState * option exn :=
  let st1 := set_editingNodeId (Some id) st in
  match get data "label" with
  | Throw e => (st1, Some e)
  | Ok label =>
      let st2 := set_tableName label st1 in
      match schema_text_of data with
      | Throw e => (st2, Some e)
      | Ok text =>
          let st3 := set_schemaText text st2 in
          match get data "color" with
          | Throw e => (st3, Some e)
          | Ok color => (set_selectedColor color st3, None)
          end
      end
  end.

(** [editingNodeId], when it is truthy. *)
Definition editing (st : AppState) : option jsstring :=
  match editingNodeId st with
  | Some id => if truthy (VStr id) then Some id else None
  | None => None
  end.

Definition newNodeData (st : AppState) : value :=
  VObj [("label", tableName st);
        ("columns", VArr (parse_columns (schemaText st)));
        ("color", selectedColor st);
        ("onDelete", VFun OnDeleteNode);
        ("onEdit", VFun OnStartEdit)].

Definition newNode (now : N) (st : AppState) : value :=
  VObj [("id", VStr (str "node_" ++ decimal now));
        ("type", VStr (str "tableNode"));
        ("position", VObj [("x", VNum 350); ("y", VNum 150)]);
        ("data", newNodeData st)].

(** [now] is what [Date.now()] returns during the call. *)
Definition addTable (now : N) (st : AppState) : result AppState :=
  if negb (truthy (tableName st)) then Ok st
  else
    st' <- match editing st with
           | Some id =>
               nds <- array_map
                        (fun n =>
                           i <- get n "id" ;;
                           Ok (if is_string i id
                               then VObj (object_literal (own_props n)
                                            [("data", newNodeData st)])
                               else n))
                        (nodes st) ;;
               Ok (set_editingNodeId None (set_nodes nds st))
           | None =>
               nds <- array_concat (nodes st) (newNode now st) ;;
               Ok (set_nodes nds st)
           end ;;
    Ok (set_schemaText [] (set_tableName (VStr []) st')).

(** [markerStart] and [markerEnd] for the selected relationship type. *)
Definition markers (relType : jsstring) : value * value :=
  if jsstring_eqb relType (str "1:1") then
    (VUndefined,
     VObj [("type", MarkerType_ArrowClosed);
           ("color", VStr (str "#3b82f6"));
           ("width", VNum 15);
           ("height", VNum 15)])
  else if jsstring_eqb relType (str "1:N") then
    (VUndefined, VStr (str "many-side"))
  else if jsstring_eqb relType (str "N:M") then
    (VStr (str "many-side"), VStr (str "many-side"))
  else (VUndefined, VUndefined).

(** The edge [onConnect] builds from the connection [params]. *)
Definition new_edge (relType : jsstring) (params : value) (now : N) : value :=
  VObj (object_literal (own_props params)
          [("id", VStr (str "e-" ++ decimal now));
           ("type", VStr (str "smoothstep"));
           ("style", VObj [("strokeWidth", VNum 1.5);
                           ("stroke", VStr (str "#3b82f6"))]);
           ("markerStart", fst (markers relType));
           ("markerEnd", snd (markers relType))]).

Definition onConnect (params : value) (now : N) (st : AppState)
  : result AppState :=
  eds <- addEdge (new_edge (relType st) params now) (edges st) ;;
  Ok (set_edges eds st).

(** The button beside the link selector. *)
Definition deleteSelectedEdge (st : AppState) : result AppState :=
  eds <- array_filter
           (fun e => i <- get e "id" ;; Ok (negb (is_string i (edgeToDelete st))))
           (edges st) ;;
  Ok (set_edgeToDelete [] (set_edges eds st)).

Definition onNodesChange (changes : value) (st : AppState) : result AppState :=
  nds <- applyNodeChanges changes (nodes st) ;;
  Ok (set_nodes nds st).

Definition onEdgesChange (changes : value) (st : AppState) : result AppState :=
  eds <- applyEdgeChanges changes (edges st) ;;
  Ok (set_edges eds st).

(** The effect run once after the first render: every node gets the two
    handlers. *)
Definition attachHandlers (st : AppState) : result AppState :=
  nds <- array_map
           (fun node =>
              d <- get node "data" ;;
              Ok (VObj (object_literal (own_props node)
                          [("data",
                            VObj (object_literal (own_props d)
                                    [("onDelete", VFun OnDeleteNode);
                                     ("onEdit", VFun OnStartEdit)]))])))
           (nodes st) ;;
  Ok (set_nodes nds st).

(** *** Export *)

(** The [onClone] option: the legend panel goes to the top left corner,
    the nodes are shifted right of it.  The result is the assignments
    made, in order, and the exception that ended the callback, if any:
    [panel.firstChild.style] of a node without a style is undefined, and
    the assignment to its [boxShadow] throws. *)
Definition export_onClone (bounds : rect) (doc : cloned_document)
  : list style_assignment * option exn :=
  let on el k v := {| target := el; property := k; assigned := v |} in
  let on_panel :=
    match panel doc with
    | None => ([], None)
    | Some child =>
        let placed :=
          [on LegendPanel "position" (str "absolute");
           on LegendPanel "left" (str "40px");
           on LegendPanel "top" (str "40px");
           on LegendPanel "margin" (str "0");
           on LegendPanel "display" (str "block");
           on LegendPanel "visibility" (str "visible");
           on LegendPanel "zIndex" (str "1000")] in
        match child with
        | NoChild => (placed, None)
        | ElementChild =>
            (placed ++
               [on PanelFirstChild "boxShadow" (str "none");
                on PanelFirstChild "border" (str "1px solid #e2e8f0")],
             None)
        | StylelessChild => (placed, Some TypeError)
        end
    end in
  match snd on_panel with
  | Some e => (fst on_panel, Some e)
  | None =>
      if viewport doc then
        let x := (- rect_x bounds + legendBuffer)%float in
        let y := (- rect_y bounds + margin)%float in
        (fst on_panel ++
           [on Viewport "transform"
              (str "translate(" ++ Number_toString x ++ str "px, "
                 ++ Number_toString y ++ str "px) scale(1)")],
         None)
      else (fst on_panel, None)
  end.

Definition export_options_for (bounds : rect) : export_options :=
  {| backgroundColor := str "#f8fafc";
     opt_width := exportWidth bounds;
     opt_height := exportHeight bounds;
     opt_style :=
       [("width", Number_toString (exportWidth bounds) ++ str "px");
        ("height", Number_toString (exportHeight bounds) ++ str "px")];
     onClone := export_onClone bounds;
     opt_filter := export_filter |}.

(** [element] is what [document.querySelector('.react-flow')] finds.
    The function updates no state; the result is what it does to the
    outside, or the exception its promise is rejected with. *)
Definition exportDiagram (format : jsstring) (now : N)
    (element : option dom_element) (st : AppState) : result (list effect) :=
  if jsstring_eqb format (str "json") then
    let data :=
      JSON_stringify
        (VObj [("nodes", nodes st); ("edges", edges st); ("legend", legend st)])
        2 in
    Ok [Download (BlobUrl data (str "application/json"))
          (str "database_model_" ++ decimal now ++ str ".json")]
  else
    match element with
    | None => Ok []
    | Some el =>
        empty <- length_is_zero (nodes st) ;;
        if empty then Ok []
        else
          Ok (try_catch
                (bounds <- getNodesBounds (nodes st) ;;
                 let options := export_options_for bounds in
                 let fileName :=
                   str "db_model_" ++ decimal now ++ str "." ++ format in
                 dataUrl <- (if jsstring_eqb format (str "svg")
                             then toSvg el options
                             else toPng el options) ;;
                 Ok [Download (DataUrl dataUrl) fileName])
                (fun err =>
                   [ConsoleError err;
                    Alert (str "Export failed. Please try again.")]))
    end.

(** *** The editor as a transition system *)

Inductive event : Type :=
| TableNameInput (s : jsstring)
| SchemaTextInput (s : jsstring)
| SelectColor (hex : value)
| RelTypeInput (s : jsstring)
| EdgeSelect (id : jsstring)
| RenameLegend (id newName : jsstring)
| DeleteNode (id : jsstring)
| StartEdit (id : jsstring) (data : value)
| AddTable (now : N)
| Connect (params : value) (now : N)
| DeleteSelectedEdge
| NodesChange (changes : value)
| EdgesChange (changes : value)
| Mounted
| Export (format : jsstring) (now : N) (element : option dom_element).

Definition next_state {A} (r : result A) (state_of : A -> AppState)
  : option AppState :=
  match r with
  | Ok a => Some (state_of a)
  | Throw _ => None
  end.

(** The state after an event; none when a state updater throws, which
    takes the application down. *)
Definition step (ev : event) (st : AppState) : option AppState :=
  match ev with
  | TableNameInput s => Some (set_tableName (VStr s) st)
  | SchemaTextInput s => Some (set_schemaText s st)
  | SelectColor hex => Some (set_selectedColor hex st)
  | RelTypeInput s => Some (set_relType s st)
  | EdgeSelect id => Some (set_edgeToDelete id st)
  | RenameLegend id newName => next_state (handleRenameLegend id newName st) fst
  | DeleteNode id => next_state (onDeleteNode id st) (fun s => s)
  | StartEdit id data => Some (fst (onStartEdit id data st))
  | AddTable now => next_state (addTable now st) (fun s => s)
  | Connect params now => next_state (onConnect params now st) (fun s => s)
  | DeleteSelectedEdge => next_state (deleteSelectedEdge st) (fun s => s)
  | NodesChange changes => next_state (onNodesChange changes st) (fun s => s)
  | EdgesChange changes => next_state (onEdgesChange changes st) (fun s => s)
  | Mounted => next_state (attachHandlers st) (fun s => s)
  | Export _ _ _ => Some st
  end.

Inductive reachable (localStorage : storage) : AppState -> Prop :=
| reachable_initial : reachable localStorage (initialState localStorage)
| reachable_step ev st st' :
    reachable localStorage st -> step ev st = Some st' ->
    reachable localStorage st'.

(** *** The table node component *)

(** The three icons of a column row. *)
Inductive icon : Type := KeyIcon | LayersIcon | LinkIcon.

(** What [flag && <Icon/>] renders as: the icon when the flag is truthy,
    the flag itself otherwise. *)
Inductive slot : Type :=
| Shown (i : icon)
| Child (v : value).

Definition and_icon (flag : value) (i : icon) : slot :=
  if truthy flag then Shown i else Child flag.

(** A row of the column list: its React key, the icons in the order
    written (primary, composite, foreign), whether the name is bold, and
    the name as it is handed to the renderer. *)
Record column_row : Type := {
  row_key : jsstring;
  row_slots : list slot;
  row_bold : bool;
  row_name : value
}.

Definition column_row_of (col : value) (index : nat) : result column_row :=
  name <- get col "name" ;;
  shown <- to_string name ;;
  pk <- get col "isPK" ;;
  ck <- get col "isCK" ;;
  fk <- get col "isFK" ;;
  Ok {| row_key := shown ++ str "-" ++ decimal (N.of_nat index);
        row_slots := [and_icon pk KeyIcon; and_icon ck LayersIcon;
                      and_icon fk LinkIcon];
        row_bold := truthy pk || truthy ck;
        row_name := name |}.

(** [cols.map((col, index) => ...)], from [index] on. *)
Fixpoint column_rows_from (index : nat) (cols : list value)
  : result (list column_row) :=
  match cols with
  | [] => Ok []
  | col :: rest =>
      row <- column_row_of col index ;;
      rows <- column_rows_from (S index) rest ;;
      Ok (row :: rows)
  end.

(** [data.columns?.map(...)]: nothing when there are no columns. *)
Definition column_rows (data : value) : result (option (list column_row)) :=
  columns <- get data "columns" ;;
  if nullish columns then Ok None
  else match columns with
       | VArr cols => rows <- column_rows_from 0 cols ;; Ok (Some rows)
       | _ => Throw TypeError
       end.

(** [data.color || '#334155'], the background of the header. *)
Definition header_background (data : value) : result value :=
  color <- get data "color" ;;
  Ok (if truthy color then color else VStr (str "#334155")).

(** A click on the header: [data.onEdit?.(id, data)].  The handler
    called, if any, is one of the two of the editor; [onDeleteNode]
    takes the id and ignores the second argument. *)
Definition header_click (id : jsstring) (data : value) : result (option event) :=
  h <- get data "onEdit" ;;
  if nullish h then Ok None
  else match h with
       | VFun OnStartEdit => Ok (Some (StartEdit id data))
       | VFun OnDeleteNode => Ok (Some (DeleteNode id))
       | _ => Throw TypeError
       end.

(** A click on the trash button: [data.onDelete?.(id)]; [onStartEdit]
    called this way gets no data. *)
Definition trash_click (id : jsstring) (data : value) : result (option event) :=
  h <- get data "onDelete" ;;
  if nullish h then Ok None
  else match h with
       | VFun OnDeleteNode => Ok (Some (DeleteNode id))
       | VFun OnStartEdit => Ok (Some (StartEdit id VUndefined))
       | _ => Throw TypeError
       end.

(** *** Vocabulary of the specification, continued *)

(** The array saved under a key: the parsed array when the text parses
    to one, the empty array otherwise. *)
Definition stored_array (saved : option jsstring) : value :=
  match saved with
  | Some text =>
      match JSON_parse text with
      | Ok (VArr elems) => VArr elems
      | _ => VArr []
      end
  | None => VArr []
  end.

(** What an event needs to go through on arrays that hold no null and no
    undefined: that the canvas library returns, and for a rename that
    the legend is such an array too. *)
Definition goes_through (ev : event) (st : AppState) : Prop :=
  match ev with
  | Connect params now =>
      exists r, addEdge (new_edge (relType st) params now) (edges st) = Ok r
  | NodesChange changes => exists r, applyNodeChanges changes (nodes st) = Ok r
  | EdgesChange changes => exists r, applyEdgeChanges changes (edges st) = Ok r
  | RenameLegend _ _ => exists items, array_of items (legend st)
  | _ => True
  end.

(** A legend item after the rename of the items with id [id]. *)
Definition renamed (id newName : jsstring) (item : value) : value :=
  if has_string "id" id item
  then VObj (object_literal (own_props item) [("name", VStr newName)])
  else item.

(** A node after the update of the nodes with id [id] to the data [d]. *)
Definition updated_node (id : jsstring) (d : value) (n : value) : value :=
  if has_string "id" id n
  then VObj (object_literal (own_props n) [("data", d)])
  else n.

(** The node the mount effect makes of [node], whose data is [d]. *)
Definition with_handlers (node d : value) : value :=
  VObj (object_literal (own_props node)
          [("data",
            VObj (object_literal (own_props d)
                    [("onDelete", VFun OnDeleteNode);
                     ("onEdit", VFun OnStartEdit)]))]).

(** A node whose data carries the two handlers of the editor. *)
Definition has_handlers (n : value) : Prop :=
  exists d,
    get n "data" = Ok d /\
    get d "onDelete" = Ok (VFun OnDeleteNode) /\
    get d "onEdit" = Ok (VFun OnStartEdit).

(** The nodes of a state are an array of nodes that carry the handlers. *)
Definition all_have_handlers (st : AppState) : Prop :=
  exists nds, nodes st = VArr nds /\ Forall has_handlers nds.

End Editor.

(* ================================================================== *)
(** ** Properties of the string operations *)

Lemma jsstring_eqb_eq (s t : jsstring) : jsstring_eqb s t = true <-> s = t.
Proof.
  revert t; induction s as [|a s IH]; intros [|b t]; simpl;
    split; try congruence; try discriminate.
  - intros H. apply andb_true_iff in H as [H1 H2].
    apply N.eqb_eq in H1. apply IH in H2. congruence.
  - intros H. injection H as -> ->.
    apply andb_true_iff; split; [apply N.eqb_refl | now apply IH].
Qed.

Lemma jsstring_eqb_refl (s : jsstring) : jsstring_eqb s s = true.
Proof. now apply jsstring_eqb_eq. Qed.

Lemma jsstring_eqb_neq (s t : jsstring) : jsstring_eqb s t = false <-> s <> t.
Proof.
  split.
  - intros H E. apply jsstring_eqb_eq in E. congruence.
  - intros H. destruct (jsstring_eqb s t) eqn:E; [|reflexivity].
    apply jsstring_eqb_eq in E. contradiction.
Qed.

(** *** [split] *)

Lemma split_comma_nonempty (s : jsstring) : split_comma s <> [].
Proof.
  destruct s as [|c t]; simpl; [discriminate|].
  destruct (code_unit_eqb c comma); [discriminate|].
  destruct (split_comma t); discriminate.
Qed.

Lemma join_split_comma (s : jsstring) : join [comma] (split_comma s) = s.
Proof.
  induction s as [|c t IH]; [reflexivity|]. simpl split_comma.
  destruct (code_unit_eqb c comma) eqn:E.
  - apply N.eqb_eq in E. subst c.
    pose proof (split_comma_nonempty t) as NE.
    destruct (split_comma t) as [|p rest]; [contradiction|].
    change (join [comma] ([] :: p :: rest))
      with ([] ++ [comma] ++ join [comma] (p :: rest)).
    now rewrite IH.
  - pose proof (split_comma_nonempty t) as NE.
    destruct (split_comma t) as [|p rest]; [contradiction|].
    destruct rest as [|q rest].
    + simpl in *. now rewrite IH.
    + change (join [comma] ((c :: p) :: q :: rest))
        with (c :: (p ++ [comma] ++ join [comma] (q :: rest))).
      change (join [comma] (p :: q :: rest))
        with (p ++ [comma] ++ join [comma] (q :: rest)) in IH.
      now rewrite IH.
Qed.

Lemma split_comma_no_comma (s : jsstring) :
  Forall (fun p => ~ In comma p) (split_comma s).
Proof.
  induction s as [|c t IH]; simpl.
  - constructor; [intros []|constructor].
  - destruct (code_unit_eqb c comma) eqn:E.
    + constructor; [intros []|exact IH].
    + destruct (split_comma t) as [|p rest].
      * constructor; [|constructor]. intros [H|[]]. subst c.
        unfold code_unit_eqb in E. now rewrite N.eqb_refl in E.
      * inversion IH as [|? ? Hp Hrest]; subst. constructor; [|exact Hrest].
        intros [H|H]; [|now apply Hp]. subst c.
        unfold code_unit_eqb in E. now rewrite N.eqb_refl in E.
Qed.

Lemma split_comma_single (p : jsstring) : ~ In comma p -> split_comma p = [p].
Proof.
  induction p as [|c t IH]; intros H; [reflexivity|]. simpl.
  destruct (code_unit_eqb c comma) eqn:E.
  - apply N.eqb_eq in E. exfalso. apply H. now left.
  - rewrite IH; [reflexivity|]. intros Hin. apply H. now right.
Qed.

Lemma split_comma_app (p rest : jsstring) :
  ~ In comma p -> split_comma (p ++ comma :: rest) = p :: split_comma rest.
Proof.
  induction p as [|c t IH]; intros H.
  - reflexivity.
  - simpl. destruct (code_unit_eqb c comma) eqn:E.
    + apply N.eqb_eq in E. exfalso. apply H. now left.
    + rewrite IH; [reflexivity|]. intros Hin. apply H. now right.
Qed.

(** *** [trim] *)

Lemma trimStart_spec (s : jsstring) :
  exists pre,
    s = pre ++ trimStart s /\
    Forall (fun c => is_whitespace c = true) pre /\
    (forall c t, trimStart s = c :: t -> is_whitespace c = false).
Proof.
  induction s as [|c t (pre & E & Hpre & Hhead)].
  - exists []. repeat split; [constructor | discriminate].
  - simpl. destruct (is_whitespace c) eqn:W.
    + exists (c :: pre). repeat split.
      * simpl. now rewrite <- E.
      * now constructor.
      * exact Hhead.
    + exists []. repeat split; [constructor|].
      intros c' t' H. now injection H as <- <-.
Qed.

Lemma trimStart_id (s : jsstring) :
  (forall c t, s = c :: t -> is_whitespace c = false) -> trimStart s = s.
Proof.
  destruct s as [|c t]; intros H; [reflexivity|]. simpl.
  now rewrite (H c t eq_refl).
Qed.

Lemma trimEnd_id (s : jsstring) :
  (forall t c, s = t ++ [c] -> is_whitespace c = false) -> trimEnd s = s.
Proof.
  intros H. unfold trimEnd. rewrite trimStart_id; [apply rev_involutive|].
  intros c t E. apply (H (rev t) c).
  rewrite <- (rev_involutive s), E. reflexivity.
Qed.

Lemma trim_id (s : jsstring) : no_outer_whitespace s -> trim s = s.
Proof.
  intros [Hs He]. unfold trim. rewrite (trimStart_id _ Hs). now apply trimEnd_id.
Qed.

(** [trim] removes a run of whitespace at each end, and all of it. *)
Lemma trim_spec (s : jsstring) :
  exists pre post,
    s = pre ++ trim s ++ post /\
    Forall (fun c => is_whitespace c = true) pre /\
    Forall (fun c => is_whitespace c = true) post /\
    no_outer_whitespace (trim s).
Proof.
  destruct (trimStart_spec s) as (pre & E & Hpre & Hhead).
  destruct (trimStart_spec (rev (trimStart s))) as (tsop & E' & Hpost & Hlast).
  assert (Eend : trimStart s = trimEnd (trimStart s) ++ rev tsop).
  { unfold trimEnd. rewrite <- rev_app_distr, <- E'. symmetry. apply rev_involutive. }
  exists pre, (rev tsop). unfold trim. repeat split.
  - now rewrite <- Eend.
  - exact Hpre.
  - apply Forall_forall. intros c Hc. apply in_rev in Hc.
    revert c Hc. now apply Forall_forall.
  - intros c t Ec. rewrite Ec in Eend. simpl in Eend. now apply (Hhead c _ Eend).
  - intros t c Ec. apply (Hlast c (rev t)).
    unfold trimEnd in Ec. rewrite <- (rev_involutive (trimStart _)), Ec.
    now rewrite rev_app_distr.
Qed.

(** *** The tag patterns *)

Lemma canonicalize_eq (a b : code_unit) :
  code_unit_eqb (canonicalize a) (canonicalize b) = true <-> eq_ignoring_case a b.
Proof.
  unfold code_unit_eqb, canonicalize, eq_ignoring_case.
  rewrite N.eqb_eq.
  destruct (N.leb_spec 97 a), (N.leb_spec a 122),
    (N.leb_spec 97 b), (N.leb_spec b 122); simpl; lia.
Qed.

Lemma eq_ignoring_case_sym (a b : code_unit) :
  eq_ignoring_case a b -> eq_ignoring_case b a.
Proof. unfold eq_ignoring_case. intuition auto. Qed.

Lemma matches_at_spec (lit s : jsstring) :
  matches_at lit s = true <->
  exists m post, s = m ++ post /\ Forall2 eq_ignoring_case m lit.
Proof.
  revert s; induction lit as [|a lit IH]; intros s; simpl.
  - split; [|reflexivity]. intros _. exists [], s. split; [reflexivity|constructor].
  - destruct s as [|b s].
    + split; [discriminate|]. intros (m & post & E & F).
      inversion F; subst. discriminate.
    + rewrite andb_true_iff, canonicalize_eq, IH. split.
      * intros (Hab & m & post & -> & F). exists (b :: m), post.
        split; [reflexivity|]. constructor; [now apply eq_ignoring_case_sym|exact F].
      * intros (m & post & E & F). inversion F as [|b' a' m' lit' Hba F']; subst.
        injection E as -> ->. split; [now apply eq_ignoring_case_sym|].
        now exists m', post.
Qed.

(** The test of [/lit/i] finds exactly the substrings equal to [lit] up
    to letter case. *)
Lemma regex_test_spec (lit s : jsstring) :
  regex_test lit s = true <-> occurs_ignoring_case lit s.
Proof.
  unfold occurs_ignoring_case. induction s as [|c t IH].
  - simpl. rewrite orb_false_r, matches_at_spec. split.
    + intros (m & post & E & F). now exists [], m, post.
    + intros (pre & m & post & E & F).
      destruct pre; [|discriminate]. now exists m, post.
  - simpl. rewrite orb_true_iff, matches_at_spec, IH. split.
    + intros [(m & post & E & F)|(pre & m & post & E & F)].
      * now exists [], m, post.
      * exists (c :: pre), m, post. split; [|exact F]. simpl. now rewrite E.
    + intros (pre & m & post & E & F). destruct pre as [|c' pre].
      * left. now exists m, post.
      * right. injection E as -> ->. now exists pre, m, post.
Qed.

Lemma tag_at_none (s : jsstring) : tag_at s = None <-> tag_here s = false.
Proof.
  unfold tag_at, tag_here. induction tag_literals as [|lit l IH]; simpl.
  - tauto.
  - destruct (matches_at lit s); simpl; [split; discriminate|exact IH].
Qed.

Lemma tag_at_some (s lit : jsstring) :
  tag_at s = Some lit -> tag_here s = true /\ List.length lit = 4.
Proof.
  intros H. split.
  - destruct (tag_here s) eqn:E; [reflexivity|].
    apply tag_at_none in E. congruence.
  - apply find_some in H as [Hin _].
    destruct Hin as [<-|[<-|[<-|[]]]]; reflexivity.
Qed.

(** A tag is an opening parenthesis followed by three code units that
    are not one. *)
Lemma tag_here_shape (s : jsstring) :
  tag_here s = true ->
  exists a b c d rest,
    s = a :: b :: c :: d :: rest /\
    canonicalize a = 40%N /\ canonicalize b <> 40%N /\
    canonicalize c <> 40%N /\ canonicalize d <> 40%N.
Proof.
  unfold tag_here, tag_literals. intros H.
  destruct s as [|a [|b [|c [|d rest]]]];
    try (simpl in H; rewrite ?andb_false_r in H; discriminate).
  exists a, b, c, d, rest. split; [reflexivity|].
  simpl in H. unfold code_unit_eqb in H.
  rewrite !orb_true_iff, !andb_true_iff, !N.eqb_eq in H.
  repeat match type of H with
         | context [canonicalize (N.pos ?p)] =>
             let v := eval vm_compute in (canonicalize (N.pos p)) in
             change (canonicalize (N.pos p)) with v in H
         end.
  repeat split; intros; lia.
Qed.

Lemma tag_here_head (a : code_unit) (t : jsstring) :
  canonicalize a <> 40%N -> tag_here (a :: t) = false.
Proof.
  intros H. destruct (tag_here (a :: t)) eqn:E; [|reflexivity].
  apply tag_here_shape in E as (a' & b & c & d & rest & Es & Ha & _).
  injection Es as -> _. contradiction.
Qed.

(** No tag occurrence starts inside another one. *)
Lemma tag_starts_apart (piece : jsstring) (i d : nat) :
  tag_starts piece i = true -> 1 <= d <= 3 -> tag_starts piece (i + d) = false.
Proof.
  unfold tag_starts. intros H Hd.
  apply tag_here_shape in H as (a & b & c & e & rest & Es & _ & Hb & Hc & He).
  replace (i + d) with (d + i) by lia. rewrite <- skipn_skipn, Es.
  destruct d as [|[|[|[|d]]]]; try lia; simpl; now apply tag_here_head.
Qed.

(** *** Removing the tags *)

Lemma inside_tag_true (piece : jsstring) (j d : nat) :
  d <= 3 -> d <= j -> tag_starts piece (j - d) = true ->
  inside_tag piece j = true.
Proof.
  intros H3 Hj H. unfold inside_tag. apply existsb_exists. exists d. split.
  - apply in_seq. lia.
  - apply andb_true_iff. split; [now apply Nat.leb_le|exact H].
Qed.

Lemma inside_tag_false (piece : jsstring) (j : nat) :
  (forall d, d <= 3 -> d <= j -> tag_starts piece (j - d) = false) ->
  inside_tag piece j = false.
Proof.
  intros H. destruct (inside_tag piece j) eqn:E; [|reflexivity].
  unfold inside_tag in E. apply existsb_exists in E as (d & Hin & Hd).
  apply in_seq in Hin. apply andb_true_iff in Hd as [Hle Ht].
  apply Nat.leb_le in Hle. rewrite H in Ht; [discriminate|lia|exact Hle].
Qed.

Lemma replace_tags_from_spec (s piece : jsstring) (pos skip : nat) :
  skipn pos piece = s ->
  scan_invariant piece pos skip ->
  replace_tags_from skip s
  = keep_positions pos (fun j => negb (inside_tag piece j)) s.
Proof.
  revert pos skip. induction s as [|c t IH]; intros pos skip Hs Inv;
    [reflexivity|].
  assert (Ht : skipn (S pos) piece = t).
  { change (S pos) with (1 + pos). now rewrite <- skipn_skipn, Hs. }
  assert (Hhere : tag_starts piece pos = tag_here (c :: t)).
  { unfold tag_starts. now rewrite Hs. }
  cbn [replace_tags_from keep_positions]. destruct skip as [|k].
  - unfold scan_invariant in Inv.
    destruct (tag_at (c :: t)) as [lit|] eqn:T.
    + apply tag_at_some in T as [Th L4]. rewrite L4. cbn [pred].
      rewrite (inside_tag_true piece pos 0);
        [|lia|lia|rewrite Nat.sub_0_r; congruence].
      cbn [negb]. apply IH; [exact Ht|].
      unfold scan_invariant. repeat split; [lia|lia|].
      replace (S pos - (4 - 3)) with pos by lia. congruence.
    + apply tag_at_none in T.
      rewrite inside_tag_false.
      * cbn [negb]. f_equal. apply IH; [exact Ht|].
        unfold scan_invariant. intros d Hd Hpos.
        destruct (Nat.eq_dec d 1) as [->|Hne].
        -- replace (S pos - 1) with pos by lia. congruence.
        -- replace (S pos - d) with (pos - (d - 1)) by lia.
           apply Inv; lia.
      * intros d H3 Hpos. destruct (Nat.eq_dec d 0) as [->|Hne].
        -- rewrite Nat.sub_0_r. congruence.
        -- apply Inv; lia.
  - destruct Inv as (Hk & Hpos & Hstart).
    rewrite (inside_tag_true piece pos (4 - S k)); [|lia|lia|exact Hstart].
    cbn [negb]. apply IH; [exact Ht|]. destruct k as [|k'].
    + unfold scan_invariant. intros d Hd Hle.
      replace (S pos - d) with ((pos - (4 - 1)) + (4 - d)) by lia.
      apply tag_starts_apart; [exact Hstart|lia].
    + unfold scan_invariant. repeat split; [lia|lia|].
      replace (S pos - (4 - S k')) with (pos - (4 - S (S k'))) by lia.
      exact Hstart.
Qed.

(** The scan of [replace] removes exactly the code units that lie
    inside a tag occurrence. *)
Lemma replace_tags_spec (piece : jsstring) :
  replace_tags piece = without_tags piece.
Proof.
  unfold replace_tags, without_tags. apply replace_tags_from_spec.
  - reflexivity.
  - simpl. intros d Hd H0. lia.
Qed.

(** A position lies inside a tag occurrence when the piece splits
    around a match of one of the three literals that covers it. *)
Lemma tag_starts_spec (piece : jsstring) (i : nat) :
  tag_starts piece i = true <->
  exists lit pre m post,
    In lit tag_literals /\ piece = pre ++ m ++ post /\
    List.length pre = i /\ Forall2 eq_ignoring_case m lit.
Proof.
  unfold tag_starts, tag_here. rewrite existsb_exists. split.
  - intros (lit & Hin & Hm). apply matches_at_spec in Hm as (m & post & E & F).
    exists lit, (firstn i piece), m, post. repeat split; try assumption.
    + now rewrite <- E, firstn_skipn.
    + apply firstn_length_le.
      destruct (Nat.le_gt_cases i (List.length piece)) as [|Hgt]; [assumption|].
      rewrite skipn_all2 in E by lia.
      destruct m; [|discriminate]. inversion F; subst.
      destruct Hin as [H|[H|[H|[]]]]; discriminate H.
  - intros (lit & pre & m & post & Hin & E & Hlen & F).
    exists lit. split; [exact Hin|]. apply matches_at_spec. exists m, post.
    split; [|exact F]. subst piece i.
    now rewrite skipn_app, skipn_all, Nat.sub_diag.
Qed.

Lemma tag_literal_length (lit : jsstring) :
  In lit tag_literals -> List.length lit = 4.
Proof. intros [<-|[<-|[<-|[]]]]; reflexivity. Qed.

(** The positions [without_tags] drops are those covered by a match of
    one of the three literals, in any letter case. *)
Lemma inside_tag_spec (piece : jsstring) (j : nat) :
  inside_tag piece j = true <->
  exists lit pre m post,
    In lit tag_literals /\ piece = pre ++ m ++ post /\
    Forall2 eq_ignoring_case m lit /\
    List.length pre <= j < List.length pre + List.length m.
Proof.
  unfold inside_tag. rewrite existsb_exists. split.
  - intros (d & Hd & H). apply in_seq in Hd.
    apply andb_true_iff in H as [Hle Hs]. apply Nat.leb_le in Hle.
    apply tag_starts_spec in Hs as (lit & pre & m & post & Hin & E & Hlen & F).
    exists lit, pre, m, post. repeat split; try assumption; try lia.
    rewrite (Forall2_length F), (tag_literal_length lit Hin). lia.
  - intros (lit & pre & m & post & Hin & E & F & Hj).
    rewrite (Forall2_length F), (tag_literal_length lit Hin) in Hj.
    exists (j - List.length pre). split; [apply in_seq; lia|].
    apply andb_true_iff. split; [apply Nat.leb_le; lia|].
    apply tag_starts_spec. exists lit, pre, m, post.
    repeat split; try assumption. lia.
Qed.

(* ================================================================== *)
(** ** The column parser *)

Lemma Forall2_map_r {A B} (P : A -> B -> Prop) (f : A -> B) (l : list A) :
  (forall a, P a (f a)) -> Forall2 P l (map f l).
Proof. intros H. induction l; simpl; constructor; auto. Qed.

(** The placeholder of the schema field, parsed. *)
Example parse_columns_placeholder :
  parse_columns (str "id (pk), user_id (fk), code (ck)")
  = [column_value {| name := str "id"; isPK := true; isFK := false; isCK := false |};
     column_value {| name := str "user_id"; isPK := false; isFK := true; isCK := false |};
     column_value {| name := str "code"; isPK := false; isFK := false; isCK := true |}].
Proof. reflexivity. Qed.

(** A tag in upper case counts, empty pieces vanish, and a tag is cut
    out of the middle of a name. *)
Example parse_columns_mixed :
  parse_columns (str " a(PK)b ,, ,c")
  = [column_value {| name := str "ab"; isPK := true; isFK := false; isCK := false |};
     column_value {| name := str "c"; isPK := false; isFK := false; isCK := false |}].
Proof. reflexivity. Qed.

Lemma is_whitespace_listed (c : code_unit) :
  is_whitespace c = true <-> In c whitespace_code_units.
Proof.
  unfold is_whitespace, whitespace_code_units. cbn [In].
  rewrite !orb_true_iff, !andb_true_iff, !N.leb_le, !N.eqb_eq. lia.
Qed.

Lemma trim_trimmed (s : jsstring) : trimmed s (trim s).
Proof.
  destruct (trim_spec s) as (pre & post & E & Hpre & Hpost & Hfirst & Hlast).
  exists pre, post. split; [exact E|].
  split; [|split; [|split]].
  - revert Hpre. apply Forall_impl. intros c. apply is_whitespace_listed.
  - revert Hpost. apply Forall_impl. intros c. apply is_whitespace_listed.
  - intros c r Ht Hin. apply is_whitespace_listed in Hin.
    rewrite (Hfirst c r Ht) in Hin. discriminate.
  - intros r c Ht Hin. apply is_whitespace_listed in Hin.
    rewrite (Hlast r c Ht) in Hin. discriminate.
Qed.

Lemma keep_positions_mask (keep : nat -> bool) (s : jsstring) (start : nat) :
  keep_positions start keep s
  = map fst (filter snd (combine s (map keep (seq start (List.length s))))).
Proof.
  revert start. induction s as [|c t IH]; intros start; [reflexivity|].
  cbn [keep_positions List.length seq map combine filter snd].
  destruct (keep start); cbn [map fst]; now rewrite IH.
Qed.

Lemma replace_tags_removed (piece : jsstring) :
  tags_removed piece (replace_tags piece).
Proof.
  exists (map (fun j => negb (inside_tag piece j)) (seq 0 (List.length piece))).
  split; [now rewrite length_map, length_seq|]. split.
  - intros j Hj.
    rewrite (nth_indep _ true (negb (inside_tag piece 0)))
      by now rewrite length_map, length_seq.
    rewrite (map_nth (fun j => negb (inside_tag piece j))), seq_nth by exact Hj.
    cbn [Nat.add]. rewrite negb_false_iff. apply inside_tag_spec.
  - rewrite replace_tags_spec. apply keep_positions_mask.
Qed.

(** C1. The column parser of [addTable]: the schema text is cut at its
    commas into the pieces [raw]; each piece is trimmed and the empty ones
    are dropped; every piece left yields one column, in the same order,
    flagged PK, FK or CK exactly when the piece contains [(pk)], [(fk)] or
    [(ck)] in any letter case, and named by the piece without its tag
    occurrences, trimmed.  Code unit 44 is the comma. *)
Theorem parse_columns_spec (schemaText : jsstring) :
  exists (raw pieces : list jsstring) (cols : list column),
    join [44%N] raw = schemaText /\
    raw <> [] /\
    Forall (fun p => ~ In 44%N p) raw /\
    Forall2 trimmed raw pieces /\
    Forall2 column_of_piece
      (filter (fun p => match p with [] => false | _ :: _ => true end) pieces)
      cols /\
    parse_columns schemaText = map column_value cols.
Proof.
  exists (split_comma schemaText), (map trim (split_comma schemaText)).
  exists (map (fun piece =>
                 {| name := trim (replace_tags piece);
                    isPK := regex_test (str "(pk)") piece;
                    isFK := regex_test (str "(fk)") piece;
                    isCK := regex_test (str "(ck)") piece |})
            (filter (fun p => negb (jsstring_eqb p []))
               (map trim (split_comma schemaText)))).
  assert (Hfilter : forall l : list jsstring,
             filter (fun p => match p with [] => false | _ :: _ => true end) l
             = filter (fun p => negb (jsstring_eqb p [])) l).
  { intros l. apply filter_ext. now intros [|c p]. }
  split; [apply join_split_comma|].
  split; [apply split_comma_nonempty|].
  split; [apply split_comma_no_comma|].
  split; [apply Forall2_map_r, trim_trimmed|].
  split.
  - rewrite Hfilter. apply Forall2_map_r. intros piece.
    unfold column_of_piece. cbn [name isPK isFK isCK].
    rewrite !regex_test_spec. repeat split; try tauto.
    exists (replace_tags piece).
    split; [apply replace_tags_removed|apply trim_trimmed].
  - unfold parse_columns. rewrite map_map. reflexivity.
Qed.

(* ================================================================== *)
(** ** Properties of the runtime *)

Lemma mapM_Ok {A B} (f : A -> result B) (g : A -> B) (l : list A) :
  (forall a, In a l -> f a = Ok (g a)) -> mapM f l = Ok (map g l).
Proof.
  induction l as [|a l IH]; intros H; [reflexivity|]. simpl.
  rewrite (H a (or_introl eq_refl)). simpl.
  rewrite IH; [reflexivity|]. intros b Hb. apply H. now right.
Qed.

Lemma filterM_Ok {A} (p : A -> result bool) (q : A -> bool) (l : list A) :
  (forall a, In a l -> p a = Ok (q a)) -> filterM p l = Ok (filter q l).
Proof.
  induction l as [|a l IH]; intros H; [reflexivity|]. simpl.
  rewrite (H a (or_introl eq_refl)). simpl.
  rewrite IH; [reflexivity|]. intros b Hb. apply H. now right.
Qed.

Lemma mapM_map_Ok {A B C} (f : B -> result C) (g : A -> B) (h : A -> C)
    (l : list A) :
  (forall a, f (g a) = Ok (h a)) -> mapM f (map g l) = Ok (map h l).
Proof.
  intros H. induction l as [|a l IH]; [reflexivity|].
  simpl. now rewrite H, IH.
Qed.

Lemma array_of_In (elems : list value) (v e : value) :
  array_of elems v -> In e elems -> nullish e = false.
Proof.
  intros [_ H] Hin. rewrite forallb_forall in H.
  apply H in Hin. now apply negb_true_iff.
Qed.

Lemma get_defined (v : value) (k : string) :
  nullish v = false -> exists x, get v k = Ok x.
Proof.
  destruct v; simpl; try discriminate; intros _; eauto;
    repeat match goal with
           | |- context [if ?b then _ else _] => destruct b
           end; eauto.
Qed.

(** Comparing a property with a string never throws on a value that is
    neither null nor undefined. *)
Lemma get_is_string (v : value) (k : string) (s : jsstring) :
  nullish v = false ->
  (x <- get v k ;; Ok (is_string x s)) = Ok (has_string k s v).
Proof.
  intros H. unfold has_string.
  destruct (get_defined v k H) as [x ->]. reflexivity.
Qed.

Lemma has_string_iff (k : string) (s : jsstring) (v : value) :
  has_string k s v = true <-> get v k = Ok (VStr s).
Proof.
  unfold has_string. destruct (get v k) as [x|e]; [|split; discriminate].
  destruct x; simpl; try (split; discriminate).
  rewrite jsstring_eqb_eq. split; congruence.
Qed.

Lemma has_string_false (k : string) (s : jsstring) (v : value) :
  has_string k s v = false <-> get v k <> Ok (VStr s).
Proof.
  rewrite <- has_string_iff. destruct (has_string k s v); split; congruence.
Qed.

Lemma lookup_set_prop_same (k : string) (v : value) (props : list (string * value)) :
  lookup k (set_prop k v props) = Some v.
Proof.
  induction props as [|[k' v'] rest IH]; simpl.
  - now rewrite String.eqb_refl.
  - destruct (String.eqb k k') eqn:E; simpl.
    + now rewrite String.eqb_refl.
    + now rewrite E.
Qed.

Lemma lookup_set_prop_other (k k0 : string) (v : value)
    (props : list (string * value)) :
  k0 <> k -> lookup k0 (set_prop k v props) = lookup k0 props.
Proof.
  intros Hne. induction props as [|[k' v'] rest IH]; simpl.
  - apply String.eqb_neq in Hne. now rewrite Hne.
  - destruct (String.eqb k k') eqn:E; simpl.
    + apply String.eqb_eq in E. subst k'.
      apply String.eqb_neq in Hne. now rewrite Hne.
    + now rewrite IH.
Qed.

(** Redefining one property keeps the keys, their order and the other
    values. *)
Lemma set_prop_keys (k : string) (v : value) (props : list (string * value)) :
  lookup k props <> None -> map fst (set_prop k v props) = map fst props.
Proof.
  induction props as [|[k' v'] rest IH]; simpl; [congruence|].
  destruct (String.eqb k k') eqn:E; simpl.
  - apply String.eqb_eq in E. now subst.
  - intros H. now rewrite IH.
Qed.

Lemma index_key_not_id (i : nat) : index_key i <> "id".
Proof.
  unfold index_key. destruct (Nat.to_uint i); simpl; discriminate.
Qed.

Lemma lookup_id_indexed (elems : list value) : lookup "id" (indexed elems) = None.
Proof.
  unfold indexed. generalize 0. induction elems as [|e l IH]; intros n;
    [reflexivity|].
  cbn [List.length seq map combine lookup].
  destruct (String.eqb "id" (index_key n)) eqn:E.
  - apply String.eqb_eq in E. symmetry in E. now apply index_key_not_id in E.
  - apply IH.
Qed.

(** Only an object has an [id] that is a string. *)
Lemma has_id_object (s : jsstring) (v : value) :
  has_string "id" s v = true -> exists props, v = VObj props.
Proof.
  unfold has_string. destruct v; simpl; try discriminate; eauto.
  - rewrite lookup_id_indexed. discriminate.
  - rewrite lookup_id_indexed. discriminate.
Qed.

(** [{...v, k: x}] on an object: property [k] is [x], the others are
    those of [v]. *)
Lemma get_redefined (props : list (string * value)) (k : string) (x : value) :
  get (VObj (object_literal props [(k, x)])) k = Ok x /\
  forall k0, k0 <> k ->
    get (VObj (object_literal props [(k, x)])) k0 = get (VObj props) k0.
Proof.
  unfold object_literal. simpl. split.
  - now rewrite lookup_set_prop_same.
  - intros k0 Hne. now rewrite lookup_set_prop_other.
Qed.

(* ================================================================== *)
(** ** Schema text that parses back *)

Lemma inert_nil : inert [].
Proof. intros lit x _. now rewrite app_nil_r. Qed.

Lemma matches_at_before (lit x rest : jsstring) (c : code_unit) :
  forallb (fun a => negb (code_unit_eqb (canonicalize a) (canonicalize c))) lit
  = true ->
  matches_at lit (x ++ c :: rest) = matches_at lit x.
Proof.
  revert x. induction lit as [|a lit IH]; intros x H; [reflexivity|].
  simpl in H. apply andb_true_iff in H as [Ha Hl]. apply negb_true_iff in Ha.
  destruct x as [|b x]; simpl.
  - now rewrite Ha.
  - now rewrite IH.
Qed.

Lemma inert_space (rest : jsstring) : inert (32%N :: rest).
Proof.
  intros lit x Hin. apply matches_at_before.
  destruct Hin as [<-|[<-|[<-|[]]]]; reflexivity.
Qed.

Lemma tag_literal_nonempty (lit : jsstring) : In lit tag_literals -> lit <> [].
Proof. intros [<-|[<-|[<-|[]]]]; discriminate. Qed.

Lemma regex_test_app (lit x sfx : jsstring) :
  inert sfx -> In lit tag_literals ->
  regex_test lit (x ++ sfx) = regex_test lit x || regex_test lit sfx.
Proof.
  intros Hs Hin. induction x as [|c x IH].
  - simpl. destruct lit; [now apply tag_literal_nonempty in Hin|reflexivity].
  - change ((c :: x) ++ sfx) with (c :: (x ++ sfx)).
    cbn [regex_test]. rewrite IH.
    change (c :: (x ++ sfx)) with ((c :: x) ++ sfx). rewrite (Hs lit (c :: x) Hin).
    now rewrite orb_assoc.
Qed.

Lemma tag_here_app (x sfx : jsstring) : inert sfx -> tag_here (x ++ sfx) = tag_here x.
Proof.
  intros Hs. unfold tag_here, tag_literals. cbn [existsb].
  rewrite !Hs; [reflexivity| | |]; unfold tag_literals; simpl; auto.
Qed.

Lemma tag_here_regex_test (s : jsstring) :
  (forall lit, In lit tag_literals -> regex_test lit s = false) ->
  tag_here s = false.
Proof.
  intros H. unfold tag_here. destruct (existsb _ tag_literals) eqn:E; [|reflexivity].
  apply existsb_exists in E as (lit & Hin & Hm).
  specialize (H lit Hin). destruct s; simpl in H; rewrite Hm in H; discriminate.
Qed.

Lemma replace_tags_app (x sfx : jsstring) :
  inert sfx ->
  (forall lit, In lit tag_literals -> regex_test lit x = false) ->
  replace_tags (x ++ sfx) = x ++ replace_tags sfx.
Proof.
  intros Hs. unfold replace_tags. induction x as [|c x IH]; intros H; [reflexivity|].
  change ((c :: x) ++ sfx) with (c :: (x ++ sfx)). cbn [replace_tags_from].
  change (c :: (x ++ sfx)) with ((c :: x) ++ sfx).
  assert (T : tag_at ((c :: x) ++ sfx) = None).
  { apply tag_at_none. rewrite tag_here_app by assumption.
    now apply tag_here_regex_test. }
  rewrite T. simpl. f_equal. apply IH. intros lit Hin.
  specialize (H lit Hin). simpl in H. now apply orb_false_iff in H.
Qed.

Lemma trim_trailing_space (s : jsstring) :
  no_outer_whitespace s -> s <> [] -> trim (s ++ [32%N]) = s.
Proof.
  intros [Hs He] Hne. unfold trim. rewrite trimStart_id.
  - unfold trimEnd. rewrite rev_app_distr.
    remember (rev s) as r eqn:Er. simpl. subst r. now apply trimEnd_id.
  - intros a u E. destruct s as [|c t]; [contradiction|].
    injection E as <- _. now apply (Hs c t).
Qed.

Lemma trim_leading_space (s : jsstring) : trim (32%N :: s) = trim s.
Proof. reflexivity. Qed.

Lemma tag_suffix_cases (c : column) :
  tag_suffix c = [] \/ exists lit, In lit tag_literals /\ tag_suffix c = 32%N :: lit.
Proof.
  unfold tag_suffix, tag_literals.
  destruct (isPK c); [right; eexists; split; [|reflexivity]; simpl; auto|].
  destruct (isFK c); [right; eexists; split; [|reflexivity]; simpl; auto|].
  destruct (isCK c); [right; eexists; split; [|reflexivity]; simpl; auto|].
  now left.
Qed.

Lemma column_shown_edges (c : column) :
  no_outer_whitespace (name c) -> name c <> [] ->
  no_outer_whitespace (column_shown c) /\ column_shown c <> [].
Proof.
  intros [Hs He] Hne. unfold column_shown. split; [split|].
  - intros a t E. destruct (name c) as [|b n]; [contradiction|].
    injection E as <- _. now apply (Hs b n).
  - intros t a E. destruct (tag_suffix_cases c) as [T|(lit & Hin & T)]; rewrite T in E.
    + rewrite app_nil_r in E. now apply (He t a).
    + assert (L : exists pre, 32%N :: lit = pre ++ [41%N]).
      { destruct Hin as [<-|[<-|[<-|[]]]];
          [exists (str " (pk")|exists (str " (fk")|exists (str " (ck")]; reflexivity. }
      destruct L as [pre L]. rewrite L, app_assoc in E.
      apply app_inj_tail in E as [_ <-]. reflexivity.
  - destruct (name c); [contradiction|discriminate].
Qed.

Lemma column_shown_no_comma (c : column) :
  ~ In comma (name c) -> ~ In comma (column_shown c).
Proof.
  intros H Hin. unfold column_shown in Hin. apply in_app_or in Hin as [Hin|Hin];
    [contradiction|].
  destruct (tag_suffix_cases c) as [T|(lit & Hl & T)]; rewrite T in Hin;
    [contradiction|].
  destruct Hl as [<-|[<-|[<-|[]]]]; simpl in Hin; unfold comma in Hin;
    intuition discriminate.
Qed.

Lemma tag_free_regex_test (c : column) (lit : jsstring) :
  tag_free_column c -> In lit tag_literals -> regex_test lit (name c) = false.
Proof.
  intros (_ & _ & _ & H & _) Hin.
  destruct (regex_test lit (name c)) eqn:E; [|reflexivity].
  apply regex_test_spec in E. now apply H in E.
Qed.

Lemma In_tag_literals :
  In (str "(pk)") tag_literals /\ In (str "(fk)") tag_literals /\
  In (str "(ck)") tag_literals.
Proof. unfold tag_literals. repeat split; simpl; tauto. Qed.

(** A tag-free column is read back from the text it is shown as. *)
Lemma column_of_item_shown (c : column) :
  tag_free_column c -> column_of_item (column_shown c) = column_value c.
Proof.
  intros Hc. pose proof (fun lit => tag_free_regex_test c lit Hc) as Hfree.
  destruct In_tag_literals as (Ipk & Ifk & Ick).
  pose proof (Hfree _ Ipk) as Hpk. pose proof (Hfree _ Ifk) as Hfk.
  pose proof (Hfree _ Ick) as Hck.
  destruct Hc as (Hone & Hne & _ & _ & Hws).
  unfold column_of_item, column_value, column_shown, tag_suffix.
  unfold at_most_one_flag in Hone.
  destruct c as [n pk fk ck]. cbn [name isPK isFK isCK] in *.
  assert (Htagged : forall lit, In lit tag_literals ->
            trim (replace_tags (n ++ 32%N :: lit)) = n).
  { intros lit Hin. rewrite replace_tags_app; [|apply inert_space|exact Hfree].
    replace (replace_tags (32%N :: lit)) with [32%N]
      by (destruct Hin as [<-|[<-|[<-|[]]]]; reflexivity).
    now apply trim_trailing_space. }
  destruct pk, fk, ck; simpl in Hone; try lia.
  - change (str " (pk)") with (32%N :: str "(pk)").
    rewrite !regex_test_app, Hpk, Hfk, Hck, Htagged;
      auto using inert_space.
  - change (str " (fk)") with (32%N :: str "(fk)").
    rewrite !regex_test_app, Hpk, Hfk, Hck, Htagged;
      auto using inert_space.
  - change (str " (ck)") with (32%N :: str "(ck)").
    rewrite !regex_test_app, Hpk, Hfk, Hck, Htagged;
      auto using inert_space.
  - rewrite app_nil_r, Hpk, Hfk, Hck.
    rewrite <- (app_nil_r n) at 1.
    rewrite replace_tags_app; [|apply inert_nil|exact Hfree].
    change (replace_tags []) with (@nil code_unit). rewrite app_nil_r.
    now rewrite trim_id.
Qed.

Lemma split_comma_join (p : jsstring) (ps : list jsstring) :
  Forall (fun q => ~ In comma q) (p :: ps) ->
  split_comma (join (str ", ") (p :: ps)) = p :: map (cons 32%N) ps.
Proof.
  revert p. induction ps as [|q ps IH]; intros p H.
  - simpl. apply split_comma_single. now inversion H.
  - inversion H as [|? ? Hp Hrest]; subst.
    change (join (str ", ") (p :: q :: ps))
      with (p ++ comma :: 32%N :: join (str ", ") (q :: ps)).
    rewrite split_comma_app by assumption.
    cbn [split_comma]. change (code_unit_eqb 32%N comma) with false.
    cbv iota. rewrite IH by assumption. reflexivity.
Qed.

(** The schema text of tag-free columns parses back to them. *)
Lemma parse_columns_shown (cols : list column) :
  Forall tag_free_column cols ->
  parse_columns (join (str ", ") (map column_shown cols)) = map column_value cols.
Proof.
  intros H. destruct cols as [|c cs]; [reflexivity|].
  unfold parse_columns. change (map column_shown (c :: cs))
    with (column_shown c :: map column_shown cs).
  rewrite split_comma_join.
  - assert (E : forall l, Forall tag_free_column l ->
                map column_of_item
                  (filter (fun i => negb (jsstring_eqb i []))
                     (map trim (map (cons 32%N) (map column_shown l))))
                = map column_value l).
    { induction l as [|d l IH]; intros Hl; [reflexivity|].
      inversion Hl as [|? ? Hd Hl']; subst. cbn [map].
      rewrite trim_leading_space.
      pose proof Hd as (Hone & Hne & Hcomma & Htag & Hws).
      destruct (column_shown_edges d Hws Hne) as [Hedges Hnonempty].
      rewrite (trim_id _ Hedges). cbn [filter].
      apply jsstring_eqb_neq in Hnonempty. rewrite Hnonempty. cbn [negb map].
      rewrite column_of_item_shown by exact Hd.
      f_equal. now apply IH. }
    inversion H as [|? ? Hc Hcs]; subst.
    specialize (E cs Hcs). cbn [map].
    pose proof Hc as (Hone & Hne & Hcomma & Htag & Hws).
    destruct (column_shown_edges c Hws Hne) as [Hedges Hnonempty].
    rewrite (trim_id _ Hedges). cbn [filter].
    apply jsstring_eqb_neq in Hnonempty. rewrite Hnonempty. cbn [negb map].
    rewrite column_of_item_shown by exact Hc.
    f_equal. exact E.
  - change (column_shown c :: map column_shown cs)
      with (map column_shown (c :: cs)).
    apply Forall_map. revert H. apply Forall_impl.
    intros d (_ & _ & Hcomma & _). now apply column_shown_no_comma.
Qed.

(** *** The side conditions, decided *)

Lemma starts_with_spec (lit s : jsstring) :
  starts_with lit s = true <-> exists post, s = lit ++ post.
Proof.
  revert s; induction lit as [|a lit IH]; intros s; simpl.
  - split; [|reflexivity]. intros _. now exists s.
  - destruct s as [|b s].
    + split; [discriminate|]. intros (post & E). discriminate.
    + unfold code_unit_eqb. rewrite andb_true_iff, N.eqb_eq, IH. split.
      * intros (-> & post & ->). now exists post.
      * intros (post & E). injection E as -> ->. split; [reflexivity|now exists post].
Qed.

Lemma contains_spec (lit s : jsstring) : contains lit s = true <-> occurs lit s.
Proof.
  unfold occurs. induction s as [|c t IH].
  - simpl. rewrite orb_false_r, starts_with_spec. split.
    + intros (post & E). now exists [], post.
    + intros (pre & post & E). destruct pre; [|discriminate]. now exists post.
  - simpl. rewrite orb_true_iff, starts_with_spec, IH. split.
    + intros [(post & E)|(pre & post & E)].
      * now exists [], post.
      * exists (c :: pre), post. simpl. now rewrite E.
    + intros (pre & post & E). destruct pre as [|c' pre].
      * left. now exists post.
      * right. injection E as -> ->. now exists pre, post.
Qed.

Lemma clean_edges_spec (s : jsstring) :
  clean_edges s = true -> no_outer_whitespace s.
Proof.
  unfold clean_edges. rewrite andb_true_iff. intros [Hs He]. split.
  - intros c t ->. now apply negb_true_iff.
  - intros t c ->. rewrite rev_app_distr in He. now apply negb_true_iff.
Qed.

Lemma well_shaped_spec (c : column) :
  well_shaped c = true ->
  at_most_one_flag c /\ name c <> [] /\ ~ In comma (name c)
  /\ no_outer_whitespace (name c).
Proof.
  unfold well_shaped. rewrite !andb_true_iff, !negb_true_iff.
  intros [[[H1 H2] H3] H4]. repeat split.
  - now apply Nat.leb_le.
  - now apply jsstring_eqb_neq.
  - intros Hin. assert (E : existsb (code_unit_eqb comma) (name c) = true).
    { apply existsb_exists. exists comma. split; [exact Hin|apply N.eqb_refl]. }
    congruence.
  - now apply clean_edges_spec.
  - now apply clean_edges_spec.
Qed.

Lemma plain_columnb_spec (c : column) : plain_columnb c = true -> plain_column c.
Proof.
  unfold plain_columnb. rewrite andb_true_iff. intros [Hw Ht].
  apply well_shaped_spec in Hw as (H1 & H2 & H3 & H4).
  repeat split; try assumption; try apply H4.
  intros lit Hin Hocc. rewrite forallb_forall in Ht.
  apply Ht in Hin. apply contains_spec in Hocc.
  rewrite Hocc in Hin. discriminate.
Qed.

Lemma tag_free_columnb_spec (c : column) :
  tag_free_columnb c = true -> tag_free_column c.
Proof.
  unfold tag_free_columnb. rewrite andb_true_iff. intros [Hw Ht].
  apply well_shaped_spec in Hw as (H1 & H2 & H3 & H4).
  repeat split; try assumption; try apply H4.
  intros lit Hin Hocc. rewrite forallb_forall in Ht.
  apply Ht in Hin. apply regex_test_spec in Hocc.
  rewrite Hocc in Hin. discriminate.
Qed.

(* ================================================================== *)
(** ** Deleting a node *)

(** C5. [onDeleteNode]: on arrays of nodes and edges, the nodes left are
    those whose [id] is not the given one and the edges left are those
    whose [source] and [target] both differ from it, each as it was and
    in the order it had; so no edge left refers to the deleted node.
    Nothing else in the state changes. *)
Theorem onDeleteNode_spec (id : jsstring) (st : AppState) (nds eds : list value) :
  array_of nds (nodes st) ->
  array_of eds (edges st) ->
  exists st' nds' eds',
    onDeleteNode id st = Ok st' /\
    nodes st' = VArr nds' /\
    edges st' = VArr eds' /\
    nds' = filter (fun n => negb (has_string "id" id n)) nds /\
    eds' = filter (fun e => negb (has_string "source" id e)
                            && negb (has_string "target" id e)) eds /\
    (forall n, In n nds' <-> In n nds /\ get n "id" <> Ok (VStr id)) /\
    (forall e, In e eds' <->
               In e eds /\ get e "source" <> Ok (VStr id)
               /\ get e "target" <> Ok (VStr id)) /\
    tableName st' = tableName st /\ schemaText st' = schemaText st /\
    selectedColor st' = selectedColor st /\ relType st' = relType st /\
    edgeToDelete st' = edgeToDelete st /\
    editingNodeId st' = editingNodeId st /\ legend st' = legend st.
Proof.
  intros Hn He.
  exists (set_edges
            (VArr (filter (fun e => negb (has_string "source" id e)
                                    && negb (has_string "target" id e)) eds))
            (set_nodes
               (VArr (filter (fun n => negb (has_string "id" id n)) nds)) st)).
  do 2 eexists.
  split; [|split; [reflexivity|split; [reflexivity|
    split; [reflexivity|split; [reflexivity|split; [|split]]]]]].
  - unfold onDeleteNode. rewrite (proj1 Hn), (proj1 He). simpl.
    rewrite (filterM_Ok _ (fun n => negb (has_string "id" id n))).
    + simpl.
      rewrite (filterM_Ok _ (fun e => negb (has_string "source" id e)
                                      && negb (has_string "target" id e))).
      * reflexivity.
      * intros e Hin. pose proof (array_of_In _ _ _ He Hin) as Hnn.
        unfold has_string.
        destruct (get_defined e "source" Hnn) as [x ->].
        destruct (get_defined e "target" Hnn) as [y ->].
        simpl. now destruct (is_string x id).
    + intros n Hin. pose proof (array_of_In _ _ _ Hn Hin) as Hnn.
      unfold has_string. destruct (get_defined n "id" Hnn) as [x ->]. reflexivity.
  - intros n. rewrite filter_In, negb_true_iff, has_string_false. tauto.
  - intros e. rewrite filter_In, andb_true_iff, !negb_true_iff, !has_string_false.
    tauto.
  - now repeat split.
Qed.

Section Properties.

Context {platform : Platform}.

#[local] Set Default Proof Using "Type".

(* ================================================================== *)
(** ** Renaming a legend entry *)

(** C7. [handleRenameLegend]: on a legend array, the entries whose [id]
    is the given one get the new [name] and keep every other property,
    [id] and [hex] among them; every other entry is unchanged; the array
    keeps its length and order.  The new legend is what the state holds
    afterwards and what is written to storage; nothing else in the state
    changes. *)
Theorem handleRenameLegend_spec (id newName : jsstring) (st : AppState)
    (items : list value) :
  array_of items (legend st) ->
  exists st' effects items',
    handleRenameLegend id newName st = Ok (st', effects) /\
    legend st' = VArr items' /\
    effects = [StorageSet "legend" (JSON_stringify (VArr items') 0)] /\
    Forall2
      (fun item item' =>
         if has_string "id" id item
         then get item' "name" = Ok (VStr newName) /\
              (forall k, k <> "name" -> get item' k = get item k)
         else item' = item)
      items items' /\
    nodes st' = nodes st /\ edges st' = edges st /\
    tableName st' = tableName st /\ schemaText st' = schemaText st /\
    selectedColor st' = selectedColor st /\ relType st' = relType st /\
    edgeToDelete st' = edgeToDelete st /\ editingNodeId st' = editingNodeId st.
Proof.
  intros Hl.
  pose (rename := fun item =>
                    if has_string "id" id item
                    then VObj (object_literal (own_props item)
                                 [("name", VStr newName)])
                    else item).
  exists (set_legend (VArr (map rename items)) st).
  exists [StorageSet "legend" (JSON_stringify (VArr (map rename items)) 0)].
  exists (map rename items).
  split; [|split; [reflexivity|split; [reflexivity|split]]].
  - unfold handleRenameLegend. rewrite (proj1 Hl). simpl.
    rewrite (mapM_Ok _ rename); [reflexivity|].
    intros item Hin. pose proof (array_of_In _ _ _ Hl Hin) as Hnn.
    unfold rename, has_string.
    destruct (get_defined item "id" Hnn) as [x ->]. reflexivity.
  - apply Forall2_map_r. intros item. unfold rename.
    destruct (has_string "id" id item) eqn:E; [|reflexivity].
    apply has_id_object in E as [props ->]. apply get_redefined.
  - now repeat split.
Qed.

(* ================================================================== *)
(** ** Adding and updating a table *)

(** C2. [addTable] with a table name that is not empty.  When no node is
    being edited, one node is appended to the nodes: it carries the name
    as its label, the selected color and the parsed columns.  When a node
    is being edited, the nodes with its id get the new data and keep
    every other property, id and position among them; every other node is
    unchanged.  Afterwards the name and the schema text are empty, and an
    update leaves edit mode; nothing else in the state changes. *)
Theorem addTable_spec (now : N) (st : AppState) (nds : list value) :
  truthy (tableName st) = true ->
  nodes st = VArr nds ->
  (editing st = None ->
   exists st',
     addTable now st = Ok st' /\
     nodes st' = VArr (nds ++ [newNode now st]) /\
     tableName st' = VStr [] /\ schemaText st' = [] /\
     edges st' = edges st /\ legend st' = legend st /\
     selectedColor st' = selectedColor st /\ relType st' = relType st /\
     edgeToDelete st' = edgeToDelete st /\
     editingNodeId st' = editingNodeId st) /\
  (forall id, editing st = Some id ->
     forallb (fun n => negb (nullish n)) nds = true ->
     exists st' nds',
       addTable now st = Ok st' /\
       nodes st' = VArr nds' /\
       Forall2
         (fun n n' =>
            if has_string "id" id n
            then get n' "data" = Ok (newNodeData st) /\
                 (forall k, k <> "data" -> get n' k = get n k)
            else n' = n)
         nds nds' /\
       tableName st' = VStr [] /\ schemaText st' = [] /\
       editingNodeId st' = None /\
       edges st' = edges st /\ legend st' = legend st /\
       selectedColor st' = selectedColor st /\ relType st' = relType st /\
       edgeToDelete st' = edgeToDelete st) /\
  get (newNode now st) "data" = Ok (newNodeData st) /\
  get (newNodeData st) "label" = Ok (tableName st) /\
  get (newNodeData st) "color" = Ok (selectedColor st) /\
  get (newNodeData st) "columns" = Ok (VArr (parse_columns (schemaText st))).
Proof.
  intros Hname Hnodes.
  split; [|split; [|now repeat split]].
  - intros Hed.
    exists (set_schemaText [] (set_tableName (VStr [])
              (set_nodes (VArr (nds ++ [newNode now st])) st))).
    split; [|now repeat split].
    unfold addTable. rewrite Hname, Hed, Hnodes. reflexivity.
  - intros id Hed Hnn.
    pose (update := fun n =>
                      if has_string "id" id n
                      then VObj (object_literal (own_props n)
                                   [("data", newNodeData st)])
                      else n).
    exists (set_schemaText [] (set_tableName (VStr [])
              (set_editingNodeId None (set_nodes (VArr (map update nds)) st)))).
    exists (map update nds).
    split; [|split; [reflexivity|split; [|now repeat split]]].
    + unfold addTable. rewrite Hname, Hed, Hnodes. simpl.
      rewrite (mapM_Ok _ update); [reflexivity|].
      intros n Hin. assert (Hn : nullish n = false).
      { rewrite forallb_forall in Hnn. apply Hnn in Hin. now apply negb_true_iff. }
      unfold update, has_string.
      destruct (get_defined n "id" Hn) as [x ->]. reflexivity.
    + apply Forall2_map_r. intros n. unfold update.
      destruct (has_string "id" id n) eqn:E; [|reflexivity].
      apply has_id_object in E as [props ->]. apply get_redefined.
Qed.

(* ================================================================== *)
(** ** Connecting two nodes *)

(** C3. The edge [onConnect] builds and hands to [addEdge]: for [1:1] a
    closed arrow at the target end and no start marker, for [1:N] the
    [many-side] marker at the target end and no start marker, for [N:M]
    the [many-side] marker at both ends; the three assignments differ
    from one another. *)
Theorem onConnect_markers (params : value) (now : N) :
  let ends relType :=
    (get (new_edge relType params now) "markerStart",
     get (new_edge relType params now) "markerEnd") in
  (forall st,
     onConnect params now st
     = (eds <- addEdge (new_edge (relType st) params now) (edges st) ;;
        Ok (set_edges eds st))) /\
  ends (str "1:1")
  = (Ok VUndefined,
     Ok (VObj [("type", MarkerType_ArrowClosed); ("color", VStr (str "#3b82f6"));
               ("width", VNum 15); ("height", VNum 15)])) /\
  ends (str "1:N") = (Ok VUndefined, Ok (VStr (str "many-side"))) /\
  ends (str "N:M") = (Ok (VStr (str "many-side")), Ok (VStr (str "many-side"))) /\
  ends (str "1:1") <> ends (str "1:N") /\
  ends (str "1:N") <> ends (str "N:M") /\
  ends (str "1:1") <> ends (str "N:M").
Proof.
  assert (E : forall relType,
             get (new_edge relType params now) "markerStart"
             = Ok (fst (markers relType)) /\
             get (new_edge relType params now) "markerEnd"
             = Ok (snd (markers relType))).
  { intros relType. unfold new_edge, object_literal.
    cbn [fold_left fst snd get]. split.
    - rewrite lookup_set_prop_other by discriminate.
      now rewrite lookup_set_prop_same.
    - now rewrite lookup_set_prop_same. }
  cbv zeta. split; [reflexivity|].
  rewrite !(proj1 (E _)), !(proj2 (E _)).
  repeat split; discriminate.
Qed.

(* ================================================================== *)
(** ** JSON export *)

(** C4. [exportDiagram('json')]: in every state, with or without nodes
    and whatever the page holds, one file is downloaded; its content is
    the JSON text of the object made of the nodes, the edges and the
    legend of the state, and of nothing else, so that two states with the
    same three arrays export the same document; the state stays as it
    is. *)
Theorem exportDiagram_json (now : N) (element : option dom_element)
    (st : AppState) :
  exportDiagram (str "json") now element st
  = Ok [Download
          (BlobUrl
             (JSON_stringify
                (VObj [("nodes", nodes st); ("edges", edges st);
                       ("legend", legend st)]) 2)
             (str "application/json"))
          (str "database_model_" ++ decimal now ++ str ".json")] /\
  (forall element' st',
     nodes st' = nodes st -> edges st' = edges st -> legend st' = legend st ->
     exportDiagram (str "json") now element' st'
     = exportDiagram (str "json") now element st) /\
  step (Export (str "json") now element) st = Some st.
Proof.
  assert (E : forall el s,
             exportDiagram (str "json") now el s
             = Ok [Download
                     (BlobUrl
                        (JSON_stringify
                           (VObj [("nodes", nodes s); ("edges", edges s);
                                  ("legend", legend s)]) 2)
                        (str "application/json"))
                     (str "database_model_" ++ decimal now ++ str ".json")])
    by reflexivity.
  split; [apply E|]. split; [|reflexivity].
  intros element' st' Hn He Hl. rewrite !E. now rewrite Hn, He, Hl.
Qed.

(* ================================================================== *)
(** ** Start-up *)

Lemma initial_array_spec (saved : option jsstring) :
  JSON_parse [] = Throw SyntaxError ->
  isArray (initial_array saved) = true /\ initial_array saved = stored_array saved.
Proof.
  intros Hempty. unfold initial_array, stored_array.
  destruct saved as [[|c t]|]; simpl.
  - rewrite Hempty. now split.
  - destruct (JSON_parse (c :: t)) as [v|e]; simpl; [|now split].
    destruct v; simpl; now split.
  - now split.
Qed.

(** C9. The initial nodes and edges, whatever is saved under the two
    keys: both are arrays, namely the parsed array when the saved text
    parses to an array, and the empty array when nothing is saved, when
    the text is malformed, or when it parses to something else.  The
    empty text is not JSON. *)
Theorem initial_nodes_edges (localStorage : storage) :
  JSON_parse [] = Throw SyntaxError ->
  isArray (nodes (initialState localStorage)) = true /\
  isArray (edges (initialState localStorage)) = true /\
  nodes (initialState localStorage) = stored_array (localStorage "nodes") /\
  edges (initialState localStorage) = stored_array (localStorage "edges").
Proof.
  intros Hempty. simpl.
  destruct (initial_array_spec (localStorage "nodes") Hempty) as [An En].
  destruct (initial_array_spec (localStorage "edges") Hempty) as [Ae Ee].
  auto.
Qed.

(* ================================================================== *)
(** ** The state containers stay arrays *)

Lemma initial_array_isArray (saved : option jsstring) :
  isArray (initial_array saved) = true.
Proof.
  unfold initial_array. destruct saved as [s|]; simpl; [|reflexivity].
  destruct (negb (jsstring_eqb s [])); simpl; [|reflexivity].
  destruct (JSON_parse s) as [v|e]; simpl; [|reflexivity].
  destruct v; reflexivity.
Qed.

Lemma array_map_isArray (f : value -> result value) (v r : value) :
  array_map f v = Ok r -> isArray r = true.
Proof.
  destruct v; simpl; try discriminate.
  destruct (mapM f elems); simpl; [|discriminate]. now intros [= <-].
Qed.

Lemma array_filter_isArray (p : value -> result bool) (v r : value) :
  array_filter p v = Ok r -> isArray r = true.
Proof.
  destruct v; simpl; try discriminate.
  destruct (filterM p elems); simpl; [|discriminate]. now intros [= <-].
Qed.

Lemma array_concat_isArray (v item r : value) :
  isArray v = true -> array_concat v item = Ok r -> isArray r = true.
Proof.
  destruct v; simpl; try discriminate. intros _. now intros [= <-].
Qed.

Lemma mapM_defined {A B} (f : A -> result B) (l : list A) :
  (forall a, In a l -> exists b, f a = Ok b) -> exists r, mapM f l = Ok r.
Proof.
  induction l as [|a l IH]; intros H; [now exists []|].
  destruct (H a (or_introl eq_refl)) as [b Hb].
  destruct IH as [r Hr]; [intros x Hx; apply H; now right|].
  exists (b :: r). simpl. now rewrite Hb, Hr.
Qed.

Lemma filterM_defined {A} (p : A -> result bool) (l : list A) :
  (forall a, In a l -> exists b, p a = Ok b) -> exists r, filterM p l = Ok r.
Proof.
  induction l as [|a l IH]; intros H; [now exists []|].
  destruct (H a (or_introl eq_refl)) as [b Hb].
  destruct IH as [r Hr]; [intros x Hx; apply H; now right|].
  exists (if b then a :: r else r). simpl. now rewrite Hb, Hr.
Qed.

(** A loop over [l] returns when its callback returns on every element. *)
Ltac loop_returns l H :=
  match goal with
  | |- context [mapM ?f l] =>
      let r := fresh "r" in
      let Hr := fresh "Hr" in
      destruct (mapM_defined f l) as [r Hr];
      [intros ? H | rewrite Hr; simpl; eauto]
  | |- context [filterM ?f l] =>
      let r := fresh "r" in
      let Hr := fresh "Hr" in
      destruct (filterM_defined f l) as [r Hr];
      [intros ? H | rewrite Hr; simpl; eauto]
  end.

Lemma attachHandlers_defined (st : AppState) (nds : list value) :
  array_of nds (nodes st) -> exists st', attachHandlers st = Ok st'.
Proof.
  intros Hn. unfold attachHandlers. rewrite (proj1 Hn). cbn [array_map].
  loop_returns nds Hin.
  pose proof (array_of_In _ _ _ Hn Hin) as Hnn.
  destruct (get_defined a "data" Hnn) as [d ->]. simpl. eauto.
Qed.

Lemma filter_by_id_defined (k : string) (id : jsstring) (elems : list value)
    (v : value) :
  array_of elems v ->
  exists r,
    array_filter (fun e => i <- get e k ;; Ok (negb (is_string i id))) v = Ok r.
Proof.
  intros Hv. rewrite (proj1 Hv). cbn [array_filter].
  loop_returns elems Hin.
  pose proof (array_of_In _ _ _ Hv Hin) as Hnn.
  destruct (get_defined a k Hnn) as [x ->]. simpl. eauto.
Qed.

Lemma onDeleteNode_defined (id : jsstring) (st : AppState) (nds eds : list value) :
  array_of nds (nodes st) -> array_of eds (edges st) ->
  exists st', onDeleteNode id st = Ok st'.
Proof.
  intros Hn He. unfold onDeleteNode.
  destruct (filter_by_id_defined "id" id nds (nodes st) Hn) as [r ->].
  cbn [bind]. rewrite (proj1 He). cbn [array_filter].
  loop_returns eds Hin.
  pose proof (array_of_In _ _ _ He Hin) as Hnn.
  destruct (get_defined a "source" Hnn) as [x ->].
  destruct (get_defined a "target" Hnn) as [y ->]. simpl.
  destruct (is_string x id); simpl; eauto.
Qed.

Lemma addTable_defined (now : N) (st : AppState) (nds : list value) :
  array_of nds (nodes st) -> exists st', addTable now st = Ok st'.
Proof.
  intros Hn. unfold addTable.
  destruct (negb (truthy (tableName st))); [eauto|].
  destruct (editing st) as [id|].
  - rewrite (proj1 Hn). cbn [array_map].
    loop_returns nds Hin.
    pose proof (array_of_In _ _ _ Hn Hin) as Hnn.
    destruct (get_defined a "id" Hnn) as [x ->]. simpl. eauto.
  - rewrite (proj1 Hn). simpl. eauto.
Qed.

Lemma onStartEdit_containers (id : jsstring) (data : value) (st : AppState) :
  nodes (fst (onStartEdit id data st)) = nodes st /\
  edges (fst (onStartEdit id data st)) = edges st.
Proof.
  unfold onStartEdit.
  destruct (get data "label"); [|now split].
  destruct (schema_text_of data); [|now split].
  destruct (get data "color"); now split.
Qed.

Lemma step_keeps_arrays (ev : event) (st st' : AppState) :
  keeps_arrays addEdge -> keeps_arrays applyNodeChanges ->
  keeps_arrays applyEdgeChanges ->
  isArray (nodes st) = true -> isArray (edges st) = true ->
  step ev st = Some st' ->
  isArray (nodes st') = true /\ isArray (edges st') = true.
Proof.
  intros KA KN KE An Ae. destruct ev; simpl.
  1-5: intros [= <-]; now split.
  - unfold handleRenameLegend.
    destruct (array_map _ (legend st)); simpl; [|discriminate].
    intros [= <-]. now split.
  - unfold onDeleteNode.
    destruct (array_filter _ (nodes st)) as [nds|] eqn:En; simpl; [|discriminate].
    destruct (array_filter _ (edges st)) as [eds|] eqn:Ee; simpl; [|discriminate].
    intros [= <-]. simpl.
    split; [eapply array_filter_isArray|eapply array_filter_isArray]; eassumption.
  - intros [= <-]. destruct (onStartEdit_containers id data st) as [-> ->].
    now split.
  - unfold addTable. destruct (negb (truthy (tableName st)));
      [intros [= <-]; now split|].
    destruct (editing st).
    + destruct (array_map _ (nodes st)) as [nds|] eqn:En; simpl; [|discriminate].
      intros [= <-]. simpl. split; [|assumption].
      eapply array_map_isArray; eassumption.
    + destruct (array_concat (nodes st) _) as [nds|] eqn:En; simpl; [|discriminate].
      intros [= <-]. simpl. split; [|assumption].
      eapply array_concat_isArray; [exact An|exact En].
  - unfold onConnect.
    destruct (addEdge _ (edges st)) as [eds|] eqn:Ee; simpl; [|discriminate].
    intros [= <-]. simpl. split; [assumption|]. eapply KA; [exact Ae|exact Ee].
  - unfold deleteSelectedEdge.
    destruct (array_filter _ (edges st)) as [eds|] eqn:Ee; simpl; [|discriminate].
    intros [= <-]. simpl. split; [assumption|].
    eapply array_filter_isArray; eassumption.
  - unfold onNodesChange.
    destruct (applyNodeChanges _ (nodes st)) as [nds|] eqn:En; simpl; [|discriminate].
    intros [= <-]. simpl. split; [|assumption]. eapply KN; [exact An|exact En].
  - unfold onEdgesChange.
    destruct (applyEdgeChanges _ (edges st)) as [eds|] eqn:Ee; simpl; [|discriminate].
    intros [= <-]. simpl. split; [assumption|]. eapply KE; [exact Ae|exact Ee].
  - unfold attachHandlers.
    destruct (array_map _ (nodes st)) as [nds|] eqn:En; simpl; [|discriminate].
    intros [= <-]. simpl. split; [|assumption].
    eapply array_map_isArray; eassumption.
  - intros [= <-]. now split.
Qed.

Lemma step_defined (ev : event) (st : AppState) (nds eds : list value) :
  array_of nds (nodes st) -> array_of eds (edges st) -> goes_through ev st ->
  exists st', step ev st = Some st'.
Proof.
  intros Hn He. destruct ev; simpl; eauto.
  - intros [items Hl]. unfold handleRenameLegend. rewrite (proj1 Hl).
    cbn [array_map].
    loop_returns items Hin.
    pose proof (array_of_In _ _ _ Hl Hin) as Hnn.
    destruct (get_defined a "id" Hnn) as [x ->]. simpl. eauto.
  - intros _. destruct (onDeleteNode_defined id st nds eds Hn He) as [st' ->].
    simpl. eauto.
  - intros _. destruct (addTable_defined now st nds Hn) as [st' ->]. simpl. eauto.
  - intros [r Hr]. unfold onConnect. rewrite Hr. simpl. eauto.
  - intros _. unfold deleteSelectedEdge.
    destruct (filter_by_id_defined "id" (edgeToDelete st) eds (edges st) He)
      as [r ->].
    simpl. eauto.
  - intros [r Hr]. unfold onNodesChange. rewrite Hr. simpl. eauto.
  - intros [r Hr]. unfold onEdgesChange. rewrite Hr. simpl. eauto.
  - intros _. destruct (attachHandlers_defined st nds Hn) as [st' ->]. simpl. eauto.
Qed.

(** X22. Provided the three functions of the canvas library return
    arrays when they are given arrays, the nodes and the edges are arrays
    in every reachable state: they are arrays in the initial state; every
    event (an input, adding or updating a table, connecting, deleting a
    node or the selected edge, node and edge changes, the mount effect,
    an export) takes a state where they are arrays to one where they are;
    and on arrays that hold no null and no undefined an event does reach
    a next state as far as the canvas library returns. *)
Theorem nodes_edges_arrays :
  keeps_arrays addEdge -> keeps_arrays applyNodeChanges ->
  keeps_arrays applyEdgeChanges ->
  (forall localStorage,
     isArray (nodes (initialState localStorage)) = true /\
     isArray (edges (initialState localStorage)) = true) /\
  (forall ev st st',
     isArray (nodes st) = true -> isArray (edges st) = true ->
     step ev st = Some st' ->
     isArray (nodes st') = true /\ isArray (edges st') = true) /\
  (forall localStorage st,
     reachable localStorage st ->
     isArray (nodes st) = true /\ isArray (edges st) = true) /\
  (forall ev st nds eds,
     array_of nds (nodes st) -> array_of eds (edges st) -> goes_through ev st ->
     exists st', step ev st = Some st').
Proof.
  intros KA KN KE.
  assert (Hinit : forall localStorage,
             isArray (nodes (initialState localStorage)) = true /\
             isArray (edges (initialState localStorage)) = true).
  { intros ls. simpl. split; apply initial_array_isArray. }
  split; [exact Hinit|]. split; [|split].
  - intros ev st st'. now apply step_keeps_arrays.
  - intros ls st R. induction R as [|ev st st' R [An Ae] Hstep].
    + apply Hinit.
    + now apply (step_keeps_arrays ev st st').
  - exact step_defined.
Qed.

(* ================================================================== *)
(** ** Image export *)


(* ================================================================== *)
(** ** From columns to schema text and back *)

Lemma column_text_shown (c : column) :
  column_text (column_value c) = Ok (VStr (column_shown c)).
Proof.
  unfold column_text, column_value, column_shown, tag_suffix.
  destruct c as [n pk fk ck]. simpl. destruct pk, fk, ck; reflexivity.
Qed.

(** C6, amended.  For columns with at most one flag each and a name that
    is not empty, has no comma, has none of the three tags in any letter
    case, and has no whitespace at either end: the schema text
    [onStartEdit] computes for them is their names, each followed by its
    tag, joined by a comma and a space, and the column parser of
    [addTable] reads that text back as the same columns. *)
Theorem columns_round_trip (cols : list column) (data : value) :
  Forall tag_free_column cols ->
  get data "columns" = Ok (VArr (map column_value cols)) ->
  schema_text_of data = Ok (join (str ", ") (map column_shown cols)) /\
  parse_columns (join (str ", ") (map column_shown cols)) = map column_value cols.
Proof.
  intros Hcols Hdata. split; [|now apply parse_columns_shown].
  unfold schema_text_of. rewrite Hdata. cbn [bind nullish array_map].
  rewrite (mapM_map_Ok column_text column_value
             (fun c => VStr (column_shown c))) by apply column_text_shown.
  cbn [bind array_join].
  rewrite (mapM_map_Ok _ (fun c => VStr (column_shown c)) column_shown)
    by reflexivity.
  reflexivity.
Qed.

End Properties.

(* ================================================================== *)
(** ** The theorems at work on the example platform *)

(** Updating the first table of the example diagram: the node with the
    edited id gets the new label and keeps its place, the other node is
    as it was. *)
Lemma addTable_spec_witness :
  truthy (tableName demo_state) = true /\
  nodes demo_state = VArr [demo_node "node_1" "users"; demo_node "node_2" "orders"] /\
  exists st' n1,
    addTable (platform := demo_platform) 17 demo_state = Ok st' /\
    nodes st' = VArr [n1; demo_node "node_2" "orders"] /\
    get n1 "id" = Ok (VStr (str "node_1")) /\
    get n1 "data" = Ok (newNodeData demo_state) /\
    tableName st' = VStr [] /\ schemaText st' = [] /\ editingNodeId st' = None.
Proof.
  split; [reflexivity|]. split; [reflexivity|].
  destruct (proj1 (proj2
              (addTable_spec (platform := demo_platform) 17 demo_state
                 [demo_node "node_1" "users"; demo_node "node_2" "orders"]
                 eq_refl eq_refl))
              (str "node_1") eq_refl eq_refl)
    as (st' & nds' & E & En & F & Ht & Hs & He & _).
  inversion F as [|n1 n1' l1 l1' H1 F1]; subst.
  inversion F1 as [|n2 n2' l2 l2' H2 F2]; subst.
  inversion F2; subst.
  assert (T1 : has_string "id" (str "node_1") (demo_node "node_1" "users") = true)
    by reflexivity.
  assert (T2 : has_string "id" (str "node_1") (demo_node "node_2" "orders") = false)
    by reflexivity.
  rewrite T1 in H1. rewrite T2 in H2. destruct H1 as [Hd Hk]. subst n2'.
  exists st', n1'. split; [exact E|]. split; [exact En|].
  split; [now rewrite Hk by discriminate|].
  split; [exact Hd|]. now repeat split.
Defined.

(** Deleting the first table of the example diagram takes the
    relationship with it. *)
Lemma onDeleteNode_spec_witness :
  array_of [demo_node "node_1" "users"; demo_node "node_2" "orders"]
    (nodes demo_state) /\
  array_of [demo_edge "e-3" "node_1" "node_2"] (edges demo_state) /\
  exists st',
    onDeleteNode (str "node_1") demo_state = Ok st' /\
    nodes st' = VArr [demo_node "node_2" "orders"] /\
    edges st' = VArr [].
Proof.
  assert (Hn : array_of [demo_node "node_1" "users"; demo_node "node_2" "orders"]
                 (nodes demo_state)) by (split; reflexivity).
  assert (He : array_of [demo_edge "e-3" "node_1" "node_2"] (edges demo_state))
    by (split; reflexivity).
  split; [exact Hn|]. split; [exact He|].
  destruct (onDeleteNode_spec (str "node_1") demo_state _ _ Hn He)
    as (st' & nds' & eds' & E & En & Ee & -> & -> & _).
  exists st'. split; [exact E|]. split; [exact En|exact Ee].
Defined.

(** Renaming the first entry of the shipped legend keeps its ten
    entries. *)
Lemma handleRenameLegend_spec_witness :
  (exists items, array_of items (legend demo_state)) /\
  exists st' effects items',
    handleRenameLegend (platform := demo_platform) (str "1") (str "Reports")
      demo_state
    = Ok (st', effects) /\
    legend st' = VArr items' /\
    effects = [StorageSet "legend" (demo_JSON_stringify (VArr items') 0)] /\
    List.length items' = 10 /\
    bind (get (nth 0 items' VUndefined) "name") (fun n => Ok n)
    = Ok (VStr (str "Reports")).
Proof.
  assert (Hl : array_of
                 match INITIAL_LEGEND with VArr items => items | _ => [] end
                 (legend demo_state)) by (split; reflexivity).
  split; [eexists; exact Hl|].
  destruct (handleRenameLegend_spec (platform := demo_platform)
              (str "1") (str "Reports") demo_state _ Hl)
    as (st' & effects & items' & E & El & Ef & F & _).
  exists st', effects, items'.
  split; [exact E|]. split; [exact El|]. split; [exact Ef|].
  split; [apply Forall2_length in F; now rewrite <- F|].
  inversion F as [|i1 i1' l l' H1 F1]; subst.
  assert (T1 : has_string "id" (str "1") (legend_item "1" "Reporting" "#fbbf24")
               = true) by reflexivity.
  rewrite T1 in H1. destruct H1 as [Hname _].
  cbn [nth]. now rewrite Hname.
Defined.

(** Clicking the header of a table whose data is the example data fills
    the form. *)
Example onStartEdit_fills_form :
  let st := fst (onStartEdit (platform := demo_platform) (str "node_2")
                   demo_data demo_state) in
  editingNodeId st = Some (str "node_2") /\
  tableName st = VStr (str "orders") /\
  schemaText st = str "id (pk), owner id (fk), note" /\
  selectedColor st = VStr (str "#94a3b8").
Proof. repeat split. Qed.

(** Pressing the update button right after puts the same columns back
    into the node. *)
Example edit_then_update :
  let st := fst (onStartEdit (platform := demo_platform) (str "node_2")
                   demo_data demo_state) in
  exists st' n1 n2,
    addTable (platform := demo_platform) 17 st = Ok st' /\
    nodes st' = VArr [n1; n2] /\
    n1 = demo_node "node_1" "users" /\
    get n2 "id" = Ok (VStr (str "node_2")) /\
    bind (get n2 "data") (fun d => get d "columns")
    = Ok (VArr (map column_value demo_columns)) /\
    editingNodeId st' = None.
Proof. do 3 eexists. repeat split. Qed.

(** Three columns, one of them with a space inside its name, go to the
    schema field and come back. *)
Lemma columns_round_trip_witness :
  Forall tag_free_column demo_columns /\
  schema_text_of (platform := demo_platform)
    (VObj [("label", VStr (str "users"));
           ("columns", VArr (map column_value demo_columns))])
  = Ok (str "id (pk), owner id (fk), note") /\
  parse_columns (str "id (pk), owner id (fk), note")
  = map column_value demo_columns.
Proof.
  assert (H : Forall tag_free_column demo_columns).
  { repeat constructor; apply tag_free_columnb_spec; reflexivity. }
  split; [exact H|].
  exact (columns_round_trip (platform := demo_platform) demo_columns
           (VObj [("label", VStr (str "users"));
                  ("columns", VArr (map column_value demo_columns))])
           H eq_refl).
Defined.

(** C6 as stated fails: the name [x(PK)] has none of the three tags as a
    substring, letter for letter, yet the parser takes its upper-case tag
    for a primary-key tag and cuts it out of the name. *)
Lemma plain_column_not_round_trip :
  plain_column upper_case_tag_column /\
  schema_text_of (platform := demo_platform)
    (VObj [("columns", VArr [column_value upper_case_tag_column])])
  = Ok (str "x(PK)") /\
  parse_columns (str "x(PK)")
  = [column_value {| name := str "x"; isPK := true; isFK := false; isCK := false |}] /\
  parse_columns (str "x(PK)") <> [column_value upper_case_tag_column].
Proof.
  split; [apply plain_columnb_spec; reflexivity|].
  split; [reflexivity|]. split; [reflexivity|]. discriminate.
Qed.



(** Start-up on the example storage: the saved nodes parse to an array,
    the saved edges to an object. *)
Lemma initial_nodes_edges_witness :
  JSON_parse (Platform := demo_platform) [] = Throw SyntaxError /\
  isArray (nodes (initialState (platform := demo_platform) demo_storage)) = true /\
  edges (initialState (platform := demo_platform) demo_storage) = VArr [].
Proof.
  split; [reflexivity|].
  destruct (initial_nodes_edges (platform := demo_platform) demo_storage eq_refl)
    as (An & _ & _ & Ee).
  split; [exact An|exact Ee].
Defined.

Lemma demo_addEdge_keeps_arrays : keeps_arrays demo_addEdge.
Proof.
  intros a v r Hv H. destruct v; try discriminate.
  injection H as <-. reflexivity.
Defined.

Lemma demo_applyChanges_keeps_arrays : keeps_arrays demo_applyChanges.
Proof. intros a v r Hv H. injection H as <-. exact Hv. Defined.

(** On the example platform every reachable state has arrays of nodes
    and of edges. *)
Lemma nodes_edges_arrays_witness :
  keeps_arrays demo_addEdge /\
  keeps_arrays demo_applyChanges /\
  forall localStorage st,
    reachable (platform := demo_platform) localStorage st ->
    isArray (nodes st) = true /\ isArray (edges st) = true.
Proof.
  split; [exact demo_addEdge_keeps_arrays|].
  split; [exact demo_applyChanges_keeps_arrays|].
  exact (proj1 (proj2 (proj2
           (nodes_edges_arrays (platform := demo_platform)
              demo_addEdge_keeps_arrays demo_applyChanges_keeps_arrays
              demo_applyChanges_keeps_arrays)))).
Defined.

(* ================================================================== *)
(** ** Identifiers made from the clock *)

Lemma str_injective (s t : string) : str s = str t -> s = t.
Proof.
  unfold str. revert t. induction s as [|a s IH]; intros [|b t] H;
    simpl in H; try discriminate; [reflexivity|].
  injection H as Hab Hst. apply IH in Hst. subst t. f_equal.
  rewrite <- (ascii_N_embedding a), <- (ascii_N_embedding b). now rewrite Hab.
Qed.

Lemma decimal_injective (n m : N) : decimal n = decimal m -> n = m.
Proof.
  unfold decimal. intros H. apply str_injective in H.
  assert (E : Some (N.to_uint n) = Some (N.to_uint m)).
  { rewrite <- !NilEmpty.usu. now rewrite H. }
  injection E as E.
  rewrite <- (DecimalN.Unsigned.of_to n), <- (DecimalN.Unsigned.of_to m).
  now rewrite E.
Qed.

Lemma digits_of_uint (d : Decimal.uint) (c : code_unit) :
  In c (str (NilEmpty.string_of_uint d)) -> (48 <= c <= 57)%N.
Proof.
  induction d; simpl; intros H; try contradiction;
    (destruct H as [<-|H]; [simpl; lia|now apply IHd]).
Qed.

Lemma decimal_digits (n : N) (c : code_unit) :
  In c (decimal n) -> (48 <= c <= 57)%N.
Proof. apply digits_of_uint. Qed.

(* ================================================================== *)
(** ** More on the column parser *)

Lemma split_comma_at_comma (a b : jsstring) :
  split_comma (a ++ comma :: b) = split_comma a ++ split_comma b.
Proof.
  induction a as [|c a IH]; [reflexivity|].
  change ((c :: a) ++ comma :: b) with (c :: (a ++ comma :: b)).
  cbn [split_comma]. rewrite IH.
  destruct (code_unit_eqb c comma); [reflexivity|].
  pose proof (split_comma_nonempty a) as NE.
  destruct (split_comma a) as [|p rest]; [contradiction|reflexivity].
Qed.

(** X1. The parser works comma by comma: the columns of a text are those of
    the part before a comma followed by those of the part after it.  So a
    comma at either end, or two in a row, add nothing. *)
Theorem parse_columns_at_comma (a b : jsstring) :
  parse_columns (a ++ comma :: b) = parse_columns a ++ parse_columns b.
Proof.
  unfold parse_columns.
  now rewrite split_comma_at_comma, map_app, filter_app, map_app.
Qed.

Lemma trimStart_whitespace (s : jsstring) :
  Forall (fun c => is_whitespace c = true) s -> trimStart s = [].
Proof.
  induction 1 as [|c s Hc _ IH]; [reflexivity|]. simpl. now rewrite Hc.
Qed.

Lemma split_comma_pieces (P : code_unit -> Prop) (t : jsstring) :
  Forall (fun c => P c \/ c = comma) t ->
  Forall (Forall P) (split_comma t).
Proof.
  induction 1 as [|c t Hc _ IH]; simpl.
  - repeat constructor.
  - destruct (code_unit_eqb c comma) eqn:E.
    + constructor; [constructor|exact IH].
    + destruct Hc as [Hc| ->];
        [|unfold code_unit_eqb in E; now rewrite N.eqb_refl in E].
      destruct (split_comma t) as [|p rest]; [repeat constructor; exact Hc|].
      inversion IH; subst. constructor; [now constructor|assumption].
Qed.

(** X2. A schema text of nothing but whitespace and commas, the empty text
    among them, has no column. *)
Theorem parse_columns_blank (t : jsstring) :
  Forall (fun c => is_whitespace c = true \/ c = comma) t ->
  parse_columns t = [].
Proof.
  intros H. unfold parse_columns.
  apply split_comma_pieces in H.
  induction H as [|p ps Hp _ IH]; [reflexivity|].
  cbn [map filter]. unfold trim at 1.
  rewrite (trimStart_whitespace p Hp). exact IH.
Qed.

Lemma length_split_comma (t : jsstring) :
  List.length (split_comma t) = S (count_occ N.eq_dec t comma).
Proof.
  induction t as [|c t IH]; [reflexivity|]. simpl.
  destruct (N.eq_dec c comma) as [->|Hne].
  - simpl. now rewrite IH.
  - replace (code_unit_eqb c comma) with false
      by (symmetry; now apply N.eqb_neq).
    pose proof (split_comma_nonempty t) as NE.
    destruct (split_comma t) as [|p rest]; [contradiction|exact IH].
Qed.

(** X3. Whatever the text, the parsed columns are at most one more than its
    commas, and each has a name with no whitespace at either end. *)
Theorem parse_columns_shape (t : jsstring) :
  exists cols : list column,
    parse_columns t = map column_value cols /\
    List.length cols <= S (count_occ N.eq_dec t comma) /\
    Forall (fun c => no_outer_whitespace (name c)) cols.
Proof.
  exists (map (fun piece =>
                 {| name := trim (replace_tags piece);
                    isPK := regex_test (str "(pk)") piece;
                    isFK := regex_test (str "(fk)") piece;
                    isCK := regex_test (str "(ck)") piece |})
            (filter (fun p => negb (jsstring_eqb p []))
               (map trim (split_comma t)))).
  split; [unfold parse_columns; now rewrite map_map|]. split.
  - rewrite length_map. etransitivity; [apply filter_length_le|].
    now rewrite length_map, length_split_comma.
  - apply Forall_map, Forall_forall. intros piece _. simpl.
    destruct (trim_spec (replace_tags piece)) as (_ & _ & _ & _ & _ & H).
    exact H.
Qed.

(** What the schema field shows of a column depends on its first flag
    only. *)
Lemma column_shown_strongest (c : column) :
  column_shown (strongest_flag c) = column_shown c.
Proof.
  unfold column_shown, tag_suffix, strongest_flag. simpl.
  now destruct (isPK c), (isFK c), (isCK c).
Qed.

Lemma strongest_flag_tag_free (c : column) :
  tag_free_name (name c) -> tag_free_column (strongest_flag c).
Proof.
  intros (H1 & H2 & H3 & H4). repeat split; try assumption; try apply H4.
  unfold at_most_one_flag, strongest_flag. simpl.
  destruct (isPK c), (isFK c), (isCK c); simpl; lia.
Qed.

(** The text of columns that may carry several flags parses back to the
    columns with the first flag of each. *)
Lemma parse_columns_shown_strongest (cols : list column) :
  Forall (fun c => tag_free_name (name c)) cols ->
  parse_columns (join (str ", ") (map column_shown cols))
  = map column_value (map strongest_flag cols).
Proof.
  intros H.
  rewrite <- (parse_columns_shown (map strongest_flag cols)).
  - rewrite map_map. f_equal. f_equal. apply map_ext.
    intros c. symmetry. apply column_shown_strongest.
  - apply Forall_map. revert H. apply Forall_impl.
    intros c. apply strongest_flag_tag_free.
Qed.

(* ================================================================== *)
(** ** More on the runtime *)

Lemma mapM_inv {A B} (f : A -> result B) (l : list A) (l' : list B) :
  mapM f l = Ok l' -> Forall2 (fun a b => f a = Ok b) l l'.
Proof.
  revert l'. induction l as [|a l IH]; simpl; intros l' H.
  - injection H as <-. constructor.
  - destruct (f a) as [b|] eqn:Ea; simpl in H; [|discriminate].
    destruct (mapM f l) as [bs|]; simpl in H; [|discriminate].
    injection H as <-. constructor; [exact Ea|now apply IH].
Qed.

Lemma filterM_inv {A} (p : A -> result bool) (l l' : list A) :
  filterM p l = Ok l' ->
  let q a := match p a with Ok c => c | Throw _ => false end in
  l' = filter q l /\ forall a, In a l -> p a = Ok (q a).
Proof.
  revert l'. induction l as [|a l IH]; simpl; intros l' H.
  - injection H as <-. split; [reflexivity|intros _ []].
  - destruct (p a) as [b|] eqn:Ea; simpl in H; [|discriminate].
    destruct (filterM p l) as [ys|]; simpl in H; [|discriminate].
    destruct (IH ys eq_refl) as (-> & Hq). injection H as <-. split.
    + now destruct b.
    + intros x [<-|Hx]; [now rewrite Ea|]. now apply Hq.
Qed.

Lemma filterM_incl {A} (p : A -> result bool) (l l' : list A) :
  filterM p l = Ok l' -> incl l' l.
Proof.
  intros H. destruct (filterM_inv p l l' H) as (-> & _).
  intros x Hx. now apply filter_In in Hx.
Qed.

Lemma set_prop_same_value (k : string) (v : value) (props : list (string * value)) :
  lookup k props = Some v -> set_prop k v props = props.
Proof.
  induction props as [|[k' v'] rest IH]; simpl; [discriminate|].
  destruct (String.eqb k k') eqn:E.
  - apply String.eqb_eq in E. subst k'. now intros [= ->].
  - intros H. now rewrite IH.
Qed.

Lemma set_prop_twice (k : string) (v w : value) (props : list (string * value)) :
  set_prop k w (set_prop k v props) = set_prop k w props.
Proof.
  induction props as [|[k' v'] rest IH]; simpl.
  - now rewrite String.eqb_refl.
  - destruct (String.eqb k k') eqn:E; simpl.
    + now rewrite String.eqb_refl.
    + now rewrite E, IH.
Qed.

Lemma lookup_object_literal_other (k : string) (base defs : list (string * value)) :
  ~ In k (map fst defs) ->
  lookup k (object_literal base defs) = lookup k base.
Proof.
  unfold object_literal. revert base.
  induction defs as [|[k' v'] defs IH]; intros base H; [reflexivity|].
  simpl. rewrite IH.
  - apply lookup_set_prop_other. intros ->. apply H. now left.
  - intros Hin. apply H. now right.
Qed.

Lemma lookup_object_literal_last (k : string) (v : value)
    (base defs : list (string * value)) :
  lookup k (object_literal base (defs ++ [(k, v)])) = Some v.
Proof.
  unfold object_literal. rewrite fold_left_app. simpl.
  apply lookup_set_prop_same.
Qed.

Lemma array_of_filter (q : value -> bool) (elems : list value) :
  array_of elems (VArr elems) -> array_of (filter q elems) (VArr (filter q elems)).
Proof.
  intros [_ H]. split; [reflexivity|].
  rewrite forallb_forall in *. intros x Hx. apply filter_In in Hx as [Hx _].
  now apply H.
Qed.

Lemma array_of_intro (elems : list value) (v : value) :
  array_of elems v -> array_of elems (VArr elems).
Proof. intros [_ H]. now split. Qed.

Lemma filter_twice {A} (q : A -> bool) (l : list A) :
  filter q (filter q l) = filter q l.
Proof.
  induction l as [|a l IH]; [reflexivity|]. simpl.
  destruct (q a) eqn:E; simpl; [rewrite E|]; now rewrite IH.
Qed.

Lemma filter_swap {A} (q r : A -> bool) (l : list A) :
  filter q (filter r l) = filter r (filter q l).
Proof.
  induction l as [|a l IH]; [reflexivity|]. simpl.
  destruct (q a) eqn:Eq, (r a) eqn:Er; simpl; rewrite ?Eq, ?Er, IH; reflexivity.
Qed.

(** [onDeleteNode] as two filters. *)
Lemma onDeleteNode_filtered (id : jsstring) (st : AppState) (nds eds : list value) :
  array_of nds (nodes st) -> array_of eds (edges st) ->
  onDeleteNode id st
  = Ok (set_edges
          (VArr (filter (fun e => negb (has_string "source" id e)
                                  && negb (has_string "target" id e)) eds))
          (set_nodes
             (VArr (filter (fun n => negb (has_string "id" id n)) nds)) st)).
Proof.
  intros Hn He. unfold onDeleteNode. rewrite (proj1 Hn), (proj1 He). simpl.
  rewrite (filterM_Ok _ (fun n => negb (has_string "id" id n))).
  - simpl.
    rewrite (filterM_Ok _ (fun e => negb (has_string "source" id e)
                                    && negb (has_string "target" id e)));
      [reflexivity|].
    intros e Hin. pose proof (array_of_In _ _ _ He Hin) as Hnn.
    unfold has_string.
    destruct (get_defined e "source" Hnn) as [x ->].
    destruct (get_defined e "target" Hnn) as [y ->].
    simpl. now destruct (is_string x id).
  - intros n Hin. pose proof (array_of_In _ _ _ Hn Hin) as Hnn.
    unfold has_string. destruct (get_defined n "id" Hnn) as [x ->]. reflexivity.
Qed.

(* ================================================================== *)
(** ** More on deleting *)

(** X9. Deleting a node a second time changes nothing, and deleting two
    nodes gives the same state in either order. *)
Theorem onDeleteNode_twice (a b : jsstring) (st : AppState) (nds eds : list value) :
  array_of nds (nodes st) ->
  array_of eds (edges st) ->
  exists sa sb sab,
    onDeleteNode a st = Ok sa /\
    onDeleteNode b st = Ok sb /\
    onDeleteNode a sa = Ok sa /\
    onDeleteNode b sa = Ok sab /\
    onDeleteNode a sb = Ok sab.
Proof.
  intros Hn He.
  pose proof (array_of_intro _ _ Hn) as Hn'.
  pose proof (array_of_intro _ _ He) as He'.
  do 3 eexists.
  split; [apply (onDeleteNode_filtered a st nds eds Hn He)|].
  split; [apply (onDeleteNode_filtered b st nds eds Hn He)|].
  split; [|split].
  - erewrite onDeleteNode_filtered;
      [|apply array_of_filter, Hn'|apply array_of_filter, He'].
    rewrite !filter_twice. reflexivity.
  - erewrite onDeleteNode_filtered;
      [|apply array_of_filter, Hn'|apply array_of_filter, He'].
    reflexivity.
  - erewrite onDeleteNode_filtered;
      [|apply array_of_filter, Hn'|apply array_of_filter, He'].
    unfold set_edges, set_nodes. simpl.
    rewrite (filter_swap (fun n => negb (has_string "id" a n))).
    rewrite (filter_swap (fun e => negb (has_string "source" a e)
                                   && negb (has_string "target" a e))).
    reflexivity.
Qed.

(** X10. The delete button of the link selector removes the edges whose id is
    the selected one, keeps every other edge as it is and in order,
    leaves the nodes and the rest of the state alone and empties the
    selection; when no edge has that id, as when nothing is selected and
    every edge has an id, only the selection is reset. *)
Theorem deleteSelectedEdge_spec (st : AppState) (eds : list value) :
  array_of eds (edges st) ->
  exists st' eds',
    deleteSelectedEdge st = Ok st' /\
    edges st' = VArr eds' /\
    edgeToDelete st' = [] /\
    eds' = filter (fun e => negb (has_string "id" (edgeToDelete st) e)) eds /\
    (forall e, In e eds' <->
               In e eds /\ get e "id" <> Ok (VStr (edgeToDelete st))) /\
    ((forall e, In e eds -> get e "id" <> Ok (VStr (edgeToDelete st))) ->
     eds' = eds) /\
    nodes st' = nodes st /\ tableName st' = tableName st /\
    schemaText st' = schemaText st /\ selectedColor st' = selectedColor st /\
    relType st' = relType st /\ editingNodeId st' = editingNodeId st /\
    legend st' = legend st.
Proof.
  intros He.
  exists (set_edgeToDelete []
            (set_edges
               (VArr (filter (fun e => negb (has_string "id" (edgeToDelete st) e))
                        eds)) st)).
  eexists.
  split; [|split; [reflexivity|split; [reflexivity|split; [reflexivity|
    split; [|split; [|now repeat split]]]]]].
  - unfold deleteSelectedEdge. rewrite (proj1 He). simpl.
    rewrite (filterM_Ok _ (fun e => negb (has_string "id" (edgeToDelete st) e)));
      [reflexivity|].
    intros e Hin. pose proof (array_of_In _ _ _ He Hin) as Hnn.
    unfold has_string. destruct (get_defined e "id" Hnn) as [x ->]. reflexivity.
  - intros e. rewrite filter_In, negb_true_iff, has_string_false. tauto.
  - intros H. apply forallb_filter_id. apply forallb_forall.
    intros e Hin. apply negb_true_iff, has_string_false. now apply H.
Qed.

Section FurtherProperties.

Context {platform : Platform}.

#[local] Set Default Proof Using "Type".

(* ================================================================== *)
(** ** Identifiers *)

Lemma new_edge_id (relType : jsstring) (params : value) (now : N) :
  get (new_edge relType params now) "id" = Ok (VStr (str "e-" ++ decimal now)).
Proof.
  unfold new_edge, object_literal. cbn [fold_left fst snd get].
  rewrite !lookup_set_prop_other by discriminate.
  now rewrite lookup_set_prop_same.
Qed.

(** X11. The id [addTable] gives a node and the id [onConnect] gives an edge
    repeat exactly when the clock does, whatever else differs; and a node
    id is never an edge id. *)
Theorem ids_follow_the_clock (now now' : N) (st st' : AppState)
    (relType relType' : jsstring) (params params' : value) :
  (get (newNode now st) "id" = get (newNode now' st') "id" <-> now = now') /\
  (get (new_edge relType params now) "id"
   = get (new_edge relType' params' now') "id" <-> now = now') /\
  get (newNode now st) "id" <> get (new_edge relType params now') "id".
Proof.
  rewrite !new_edge_id. cbn [newNode get lookup String.eqb Ascii.eqb Bool.eqb].
  repeat split.
  - intros [= H]. now apply decimal_injective.
  - now intros ->.
  - intros [= H]. now apply decimal_injective.
  - now intros ->.
  - discriminate.
Qed.

(* ================================================================== *)
(** ** Starting an edit *)

Lemma schema_text_of_shown (cols : list column) (data : value) :
  get data "columns" = Ok (VArr (map column_value cols)) ->
  schema_text_of data = Ok (join (str ", ") (map column_shown cols)).
Proof.
  intros Hdata. unfold schema_text_of. rewrite Hdata.
  cbn [bind nullish array_map].
  rewrite (mapM_map_Ok column_text column_value
             (fun c => VStr (column_shown c))) by apply column_text_shown.
  cbn [bind array_join].
  rewrite (mapM_map_Ok _ (fun c => VStr (column_shown c)) column_shown)
    by reflexivity.
  reflexivity.
Qed.

(** X4. Columns that carry several flags lose all but the first on their way
    through the schema field: the text shows one tag per column, primary
    before foreign before composite, and parses back to that flag
    alone. *)
Theorem schema_text_keeps_first_flag (cols : list column) (data : value) :
  Forall (fun c => tag_free_name (name c)) cols ->
  get data "columns" = Ok (VArr (map column_value cols)) ->
  exists text,
    schema_text_of data = Ok text /\
    parse_columns text = map column_value (map strongest_flag cols).
Proof.
  intros Hcols Hdata. exists (join (str ", ") (map column_shown cols)). split.
  - now apply schema_text_of_shown.
  - now apply parse_columns_shown_strongest.
Qed.

(** X5. [onStartEdit] always records the id and never touches the diagram.
    On data that is null or undefined it throws before filling the form;
    on data without columns the schema text becomes empty; on columns
    that are not an array and have no [map] it throws after the name, leaving the schema
    text and the color as they were. *)
Theorem onStartEdit_edges (id : jsstring) (data : value) (st : AppState) :
  let st' := fst (onStartEdit id data st) in
  let err := snd (onStartEdit id data st) in
  (editingNodeId st' = Some id /\ nodes st' = nodes st /\ edges st' = edges st
   /\ legend st' = legend st /\ relType st' = relType st
   /\ edgeToDelete st' = edgeToDelete st) /\
  (nullish data = true ->
   err = Some TypeError /\ tableName st' = tableName st
   /\ schemaText st' = schemaText st /\ selectedColor st' = selectedColor st) /\
  (forall columns,
     get data "columns" = Ok columns -> nullish columns = true ->
     err = None /\ Ok (tableName st') = get data "label"
     /\ schemaText st' = [] /\ Ok (selectedColor st') = get data "color") /\
  (forall columns,
     get data "columns" = Ok columns -> nullish columns = false ->
     isArray columns = false -> get columns "map" = Ok VUndefined ->
     err = Some TypeError /\ Ok (tableName st') = get data "label"
     /\ schemaText st' = schemaText st /\ selectedColor st' = selectedColor st).
Proof.
  cbv zeta. split; [|split; [|split]].
  - unfold onStartEdit.
    destruct (get data "label"); [|now repeat split].
    destruct (schema_text_of data); [|now repeat split].
    destruct (get data "color"); now repeat split.
  - intros Hnull. unfold onStartEdit.
    destruct data; try discriminate; now repeat split.
  - intros columns Hcols Hnull.
    assert (Hdata : nullish data = false)
      by (destruct data; try reflexivity; discriminate).
    unfold onStartEdit, schema_text_of. rewrite Hcols. cbn [bind]. rewrite Hnull.
    destruct (get_defined data "label" Hdata) as [label ->].
    destruct (get_defined data "color" Hdata) as [color ->].
    now repeat split.
  - intros columns Hcols Hnull Harr _.
    assert (Hdata : nullish data = false)
      by (destruct data; try reflexivity; discriminate).
    unfold onStartEdit, schema_text_of. rewrite Hcols. cbn [bind]. rewrite Hnull.
    destruct (get_defined data "label" Hdata) as [label ->].
    destruct columns; try discriminate; now repeat split.
Qed.

(* ================================================================== *)
(** ** The mount effect and the handlers of a node *)

Lemma Forall2_image {A B} (P : A -> B -> Prop) (l : list A) (l' : list B) (b : B) :
  Forall2 P l l' -> In b l' -> exists a, In a l /\ P a b.
Proof.
  induction 1 as [|x y l l' Hxy _ IH]; intros Hin; [destruct Hin|].
  destruct Hin as [<-|Hin].
  - exists x. split; [now left|exact Hxy].
  - destruct (IH Hin) as (a & Ha & Hp). exists a. split; [now right|exact Hp].
Qed.

Lemma with_handlers_has_handlers (node d : value) :
  has_handlers (with_handlers node d).
Proof.
  unfold has_handlers, with_handlers.
  exists (VObj (object_literal (own_props d)
                  [("onDelete", VFun OnDeleteNode); ("onEdit", VFun OnStartEdit)])).
  repeat split.
  - apply get_redefined.
  - unfold object_literal. cbn [fold_left fst snd get].
    rewrite lookup_set_prop_other by discriminate.
    now rewrite lookup_set_prop_same.
  - unfold object_literal. cbn [fold_left fst snd get].
    now rewrite lookup_set_prop_same.
Qed.

Lemma attach_callback (node : value) :
  nullish node = false ->
  exists d,
    get node "data" = Ok d /\
    (d <- get node "data" ;;
     Ok (VObj (object_literal (own_props node)
                 [("data",
                   VObj (object_literal (own_props d)
                           [("onDelete", VFun OnDeleteNode);
                            ("onEdit", VFun OnStartEdit)]))])))
    = Ok (with_handlers node d).
Proof.
  intros H. destruct (get_defined node "data" H) as [d Hd].
  exists d. split; [exact Hd|]. now rewrite Hd.
Qed.

(** A node that came out of the mount effect goes through it
    unchanged. *)
Lemma with_handlers_fixed (node d : value) :
  get (with_handlers node d) "data"
  = Ok (VObj (object_literal (own_props d)
                [("onDelete", VFun OnDeleteNode); ("onEdit", VFun OnStartEdit)]))
  /\ with_handlers (with_handlers node d)
       (VObj (object_literal (own_props d)
                [("onDelete", VFun OnDeleteNode); ("onEdit", VFun OnStartEdit)]))
     = with_handlers node d.
Proof.
  split; [apply get_redefined|].
  unfold with_handlers, object_literal. cbn [fold_left fst snd own_props].
  f_equal. rewrite set_prop_twice. f_equal. f_equal.
  rewrite (set_prop_same_value "onDelete").
  - apply set_prop_same_value, lookup_set_prop_same.
  - rewrite lookup_set_prop_other by discriminate. apply lookup_set_prop_same.
Qed.

Lemma attachHandlers_inv (st st' : AppState) :
  attachHandlers st = Ok st' ->
  exists nds nds',
    nodes st = VArr nds /\ st' = set_nodes (VArr nds') st /\
    Forall2 (fun n n' => exists d, get n "data" = Ok d /\ n' = with_handlers n d)
      nds nds'.
Proof.
  unfold attachHandlers. destruct (nodes st) as [| | | | | |nds|] eqn:En;
    try discriminate.
  cbn [array_map].
  match goal with
  | |- context [mapM ?f nds] => destruct (mapM f nds) as [nds'|] eqn:Em
  end; [|discriminate].
  cbn [bind]. intros [= <-]. exists nds, nds'. repeat split.
  apply mapM_inv in Em. revert Em. apply Forall2_impl.
  intros n n' H. destruct (get n "data") as [d|]; [|discriminate].
  exists d. split; [reflexivity|]. now injection H as <-.
Qed.

(** X13. The mount effect: on an array of nodes, none null or undefined, it
    goes through and every node of the new state has the two handlers in
    its data; a node that is an object keeps its other properties, and
    data that is an object keeps its other properties too.  Nothing but
    the nodes changes. *)
Theorem attachHandlers_spec (st : AppState) (nds : list value) :
  array_of nds (nodes st) ->
  exists st' nds',
    attachHandlers st = Ok st' /\
    nodes st' = VArr nds' /\
    Forall2
      (fun n n' =>
         has_handlers n' /\
         (forall props k, n = VObj props -> k <> "data" -> get n' k = get n k) /\
         (forall dprops, get n "data" = Ok (VObj dprops) ->
            exists d', get n' "data" = Ok d' /\
              forall k, k <> "onDelete" -> k <> "onEdit" ->
                get d' k = get (VObj dprops) k))
      nds nds' /\
    edges st' = edges st /\ legend st' = legend st /\
    tableName st' = tableName st /\ schemaText st' = schemaText st /\
    selectedColor st' = selectedColor st /\ relType st' = relType st /\
    edgeToDelete st' = edgeToDelete st /\ editingNodeId st' = editingNodeId st.
Proof.
  intros Hn.
  destruct (attachHandlers_defined st nds Hn) as [st' E].
  destruct (attachHandlers_inv st st' E) as (nds0 & nds' & En & -> & F).
  rewrite (proj1 Hn) in En. injection En as <-.
  exists (set_nodes (VArr nds') st), nds'.
  split; [exact E|]. split; [reflexivity|]. split; [|now repeat split].
  revert F. apply Forall2_impl. intros n n' (d & Hd & ->).
  split; [apply with_handlers_has_handlers|]. split.
  - intros props k -> Hk. now apply get_redefined.
  - intros dprops Hdp. rewrite Hdp in Hd. injection Hd as <-.
    exists (VObj (object_literal dprops
                    [("onDelete", VFun OnDeleteNode); ("onEdit", VFun OnStartEdit)])).
    split; [exact (proj1 (get_redefined _ _ _))|].
    intros k H1 H2. cbn [get own_props]. f_equal.
    rewrite lookup_object_literal_other; [reflexivity|].
    cbn [map fst In]. intros [<-|[<-|[]]]; congruence.
Qed.

(** X14. The mount effect run a second time changes nothing. *)
Theorem attachHandlers_idempotent (st st' : AppState) :
  attachHandlers st = Ok st' -> attachHandlers st' = Ok st'.
Proof.
  intros E. destruct (attachHandlers_inv st st' E) as (nds & nds' & En & -> & F).
  unfold attachHandlers. cbn [nodes set_nodes array_map].
  rewrite (mapM_Ok _ (fun n => n)).
  - now rewrite map_id.
  - intros n' Hin.
    destruct (Forall2_image _ _ _ _ F Hin) as (n & _ & d & _ & ->).
    destruct (with_handlers_fixed n d) as [E1 E2]. rewrite E1. cbn [bind].
    exact (f_equal Ok E2).
Qed.

Lemma all_have_handlers_nodes (st st' : AppState) :
  nodes st' = nodes st -> all_have_handlers st -> all_have_handlers st'.
Proof. intros E (nds & En & F). exists nds. now rewrite E. Qed.

Lemma newNodeData_handlers (st : AppState) :
  get (newNodeData st) "onDelete" = Ok (VFun OnDeleteNode) /\
  get (newNodeData st) "onEdit" = Ok (VFun OnStartEdit).
Proof. now split. Qed.

Lemma updated_node_has_handlers (id : jsstring) (st : AppState) (n : value) :
  has_handlers n -> has_handlers (updated_node id (newNodeData st) n).
Proof.
  intros H. unfold updated_node. destruct (has_string "id" id n); [|exact H].
  exists (newNodeData st). split; [apply get_redefined|apply newNodeData_handlers].
Qed.

Lemma newNode_has_handlers (now : N) (st : AppState) : has_handlers (newNode now st).
Proof. exists (newNodeData st). split; [reflexivity|apply newNodeData_handlers]. Qed.

(** X15. Once every node carries the two handlers, every node carries them
    after any event, as long as the canvas library hands back nodes that
    carry them when it is given such nodes. *)
Theorem handlers_stay (ev : event) (st st' : AppState) :
  (forall changes nds r,
     Forall has_handlers nds ->
     applyNodeChanges changes (VArr nds) = Ok r ->
     exists nds', r = VArr nds' /\ Forall has_handlers nds') ->
  all_have_handlers st ->
  step ev st = Some st' ->
  all_have_handlers st'.
Proof.
  intros Hlib Hst. destruct ev; cbn [step].
  1-5: intros [= <-]; revert Hst; now apply all_have_handlers_nodes.
  - unfold handleRenameLegend.
    destruct (array_map _ (legend st)); cbn [bind next_state]; [|discriminate].
    intros [= <-]. revert Hst. now apply all_have_handlers_nodes.
  - destruct Hst as (nds & En & F). unfold onDeleteNode. rewrite En.
    cbn [array_filter].
    match goal with
    | |- context [filterM ?p nds] => destruct (filterM p nds) as [nds'|] eqn:Ef
    end; cbn [bind next_state]; [|discriminate].
    destruct (array_filter _ (edges st)); cbn [bind next_state]; [|discriminate].
    intros [= <-]. exists nds'. split; [reflexivity|].
    apply filterM_incl in Ef. rewrite Forall_forall in *. auto.
  - intros [= <-]. revert Hst. apply all_have_handlers_nodes.
    apply onStartEdit_containers.
  - destruct Hst as (nds & En & F). unfold addTable.
    destruct (negb (truthy (tableName st))); cbn [next_state].
    { intros [= <-]. now exists nds. }
    destruct (editing st) as [id|].
    + rewrite En. cbn [array_map].
      match goal with
      | |- context [mapM ?f nds] => destruct (mapM f nds) as [nds'|] eqn:Em
      end; cbn [bind next_state]; [|discriminate].
      intros [= <-]. exists nds'. split; [reflexivity|].
      apply mapM_inv in Em. clear En. induction Em as [|n n' l l' Hn _ IH].
      * constructor.
      * inversion F; subst. constructor; [|now apply IH].
        destruct (get n "id") as [i|]; [|discriminate].
        cbn [bind] in Hn. injection Hn as <-.
        destruct (is_string i id); [|assumption].
        exists (newNodeData st).
        split; [apply get_redefined|apply newNodeData_handlers].
    + rewrite En. cbn [array_concat newNode bind next_state].
      intros [= <-]. eexists. split; [reflexivity|].
      apply Forall_app. split; [exact F|].
      constructor; [apply newNode_has_handlers|constructor].
  - unfold onConnect. destruct (addEdge _ _); cbn [bind next_state]; [|discriminate].
    intros [= <-]. revert Hst. now apply all_have_handlers_nodes.
  - unfold deleteSelectedEdge.
    destruct (array_filter _ _); cbn [bind next_state]; [|discriminate].
    intros [= <-]. revert Hst. now apply all_have_handlers_nodes.
  - destruct Hst as (nds & En & F). unfold onNodesChange. rewrite En.
    destruct (applyNodeChanges changes (VArr nds)) as [r|] eqn:Er;
      cbn [bind next_state]; [|discriminate].
    intros [= <-]. destruct (Hlib _ _ _ F Er) as (nds' & -> & F').
    now exists nds'.
  - unfold onEdgesChange.
    destruct (applyEdgeChanges _ _); cbn [bind next_state]; [|discriminate].
    intros [= <-]. revert Hst. now apply all_have_handlers_nodes.
  - destruct (attachHandlers st) as [s|] eqn:E; cbn [next_state]; [|discriminate].
    intros [= <-]. destruct (attachHandlers_inv st s E) as (nds & nds' & _ & -> & F).
    exists nds'. split; [reflexivity|].
    clear E. induction F as [|n n' l l' Hn _ IH]; [constructor|].
    destruct Hn as (d & _ & ->).
    constructor; [apply with_handlers_has_handlers|exact IH].
  - intros [= <-]. exact Hst.
Qed.

(** X16. The buttons of a table node.  On a node that carries the handlers, a
    click on the header starts the edit of that node with its data, and a
    click on the trash button deletes it.  On data that is an object
    without the handlers, as a saved node has before the mount effect,
    neither click does anything.  On data that is null or undefined both
    clicks throw. *)
Theorem table_node_clicks (id : jsstring) :
  (forall n d,
     has_handlers n -> get n "data" = Ok d ->
     header_click id d = Ok (Some (StartEdit id d)) /\
     trash_click id d = Ok (Some (DeleteNode id))) /\
  (forall props,
     lookup "onEdit" props = None -> lookup "onDelete" props = None ->
     header_click id (VObj props) = Ok None /\
     trash_click id (VObj props) = Ok None) /\
  (forall d,
     nullish d = true ->
     header_click id d = Throw TypeError /\ trash_click id d = Throw TypeError).
Proof.
  split; [|split].
  - intros n d (d' & Hd' & Ho & He) Hd. rewrite Hd in Hd'. injection Hd' as <-.
    unfold header_click, trash_click. now rewrite He, Ho.
  - intros props He Ho. unfold header_click, trash_click. cbn [get].
    now rewrite He, Ho.
  - intros d Hd. now destruct d.
Qed.

(* ================================================================== *)
(** ** More on adding and updating a table *)

Lemma addTable_new (now : N) (st : AppState) (nds : list value) :
  nodes st = VArr nds -> truthy (tableName st) = true -> editing st = None ->
  addTable now st
  = Ok (set_schemaText [] (set_tableName (VStr [])
          (set_nodes (VArr (nds ++ [newNode now st])) st))).
Proof.
  intros En Ht Ee. unfold addTable. now rewrite Ht, Ee, En.
Qed.

Lemma addTable_update (now : N) (id : jsstring) (st : AppState) (nds : list value) :
  array_of nds (nodes st) -> truthy (tableName st) = true -> editing st = Some id ->
  addTable now st
  = Ok (set_schemaText [] (set_tableName (VStr [])
          (set_editingNodeId None
             (set_nodes (VArr (map (updated_node id (newNodeData st)) nds)) st)))).
Proof.
  intros Hn Ht Ee. unfold addTable. rewrite Ht, Ee, (proj1 Hn).
  cbn [negb array_map].
  rewrite (mapM_Ok _ (updated_node id (newNodeData st))); [reflexivity|].
  intros n Hin. pose proof (array_of_In _ _ _ Hn Hin) as Hnn.
  unfold updated_node, has_string.
  destruct (get_defined n "id" Hnn) as [x ->]. reflexivity.
Qed.

Lemma map_updated_node_none (id : jsstring) (d : value) (nds : list value) :
  Forall (fun n => has_string "id" id n = false) nds ->
  map (updated_node id d) nds = nds.
Proof.
  induction 1 as [|n l Hn _ IH]; [reflexivity|].
  cbn [map]. unfold updated_node at 1. now rewrite Hn, IH.
Qed.

Lemma filter_all {A} (q : A -> bool) (l : list A) :
  Forall (fun a => q a = true) l -> filter q l = l.
Proof.
  induction 1 as [|a l Ha _ IH]; [reflexivity|]. simpl. now rewrite Ha, IH.
Qed.

Lemma array_of_snoc (elems : list value) (v e : value) :
  array_of elems v -> nullish e = false -> array_of (elems ++ [e]) (VArr (elems ++ [e])).
Proof.
  intros [_ H] He. split; [reflexivity|].
  rewrite forallb_app, H. simpl. now rewrite He.
Qed.

Lemma newNode_id (now : N) (st : AppState) :
  has_string "id" (str "node_" ++ decimal now) (newNode now st) = true.
Proof. apply has_string_iff. reflexivity. Qed.

(** X7. Deleting the table that is being edited leaves the form in edit
    mode.  Update pressed after that adds no table and changes none: it
    only clears the form and leaves edit mode. *)
Theorem update_after_delete (id : jsstring) (now : N) (st : AppState)
    (nds eds : list value) :
  array_of nds (nodes st) ->
  array_of eds (edges st) ->
  editing st = Some id ->
  truthy (tableName st) = true ->
  exists st1 st2,
    step (DeleteNode id) st = Some st1 /\
    editing st1 = Some id /\
    step (AddTable now) st1 = Some st2 /\
    nodes st2 = nodes st1 /\ edges st2 = edges st1 /\
    editingNodeId st2 = None /\ tableName st2 = VStr [] /\ schemaText st2 = [].
Proof.
  intros Hn He Ee Ht. do 2 eexists.
  split; [cbn [step]; now rewrite (onDeleteNode_filtered id st nds eds Hn He)|].
  split; [exact Ee|].
  split.
  - cbn [step].
    rewrite (addTable_update now id _
               (filter (fun n => negb (has_string "id" id n)) nds));
      [reflexivity| |exact Ht|exact Ee].
    apply array_of_filter. now apply array_of_intro with (v := nodes st).
  - cbn [nodes edges editingNodeId tableName schemaText set_schemaText
           set_tableName set_editingNodeId set_nodes set_edges].
    repeat split. f_equal. apply map_updated_node_none.
    apply Forall_forall. intros n Hin. apply filter_In in Hin as [_ Hin].
    now apply negb_true_iff.
Qed.

(** X8. A table added and then deleted: the nodes are the earlier ones
    without those that had the id of the new node, the edges the earlier
    ones without those that touched that id.  When no earlier node has
    the id and no edge touches it, nodes and edges are back as they
    were. *)
Theorem add_then_delete (now : N) (st : AppState) (nds eds : list value) :
  array_of nds (nodes st) ->
  array_of eds (edges st) ->
  editing st = None ->
  truthy (tableName st) = true ->
  let id := str "node_" ++ decimal now in
  exists st1 st2,
    step (AddTable now) st = Some st1 /\
    step (DeleteNode id) st1 = Some st2 /\
    nodes st2 = VArr (filter (fun n => negb (has_string "id" id n)) nds) /\
    edges st2 = VArr (filter (fun e => negb (has_string "source" id e)
                                       && negb (has_string "target" id e)) eds) /\
    (Forall (fun n => get n "id" <> Ok (VStr id)) nds -> nodes st2 = nodes st) /\
    (Forall (fun e => get e "source" <> Ok (VStr id)
                      /\ get e "target" <> Ok (VStr id)) eds ->
     edges st2 = edges st).
Proof.
  intros Hn He Ee Ht id. do 2 eexists.
  split; [cbn [step]; now rewrite (addTable_new now st nds (proj1 Hn) Ht Ee)|].
  split.
  - cbn [step].
    rewrite (onDeleteNode_filtered id _ (nds ++ [newNode now st]) eds);
      [reflexivity| |exact He].
    now apply array_of_snoc with (v := nodes st).
  - cbn [nodes edges set_schemaText set_tableName set_nodes set_edges].
    assert (Ef : filter (fun n => negb (has_string "id" id n))
                   (nds ++ [newNode now st])
                 = filter (fun n => negb (has_string "id" id n)) nds).
    { rewrite filter_app. cbn [filter]. unfold id. rewrite newNode_id.
      apply app_nil_r. }
    rewrite Ef. repeat split.
    + intros H. rewrite (proj1 Hn). f_equal. apply filter_all.
      revert H. apply Forall_impl. intros n H.
      now apply negb_true_iff, has_string_false.
    + intros H. rewrite (proj1 He). f_equal. apply filter_all.
      revert H. apply Forall_impl. intros e [H1 H2].
      apply andb_true_iff. split; now apply negb_true_iff, has_string_false.
Qed.

(** X6. A click on the header of a table followed by Update, with nothing
    typed in between: the nodes with the id get data made of the same
    label and color, the handlers, and the columns with the first flag of
    each only; the other nodes are untouched, the edges too, and the form
    is left empty and out of edit mode. *)
Theorem edit_then_update_spec (id : jsstring) (data label color : value)
    (cols : list column) (now : N) (st : AppState) (nds : list value) :
  array_of nds (nodes st) ->
  id <> [] ->
  get data "label" = Ok label -> truthy label = true ->
  get data "color" = Ok color ->
  get data "columns" = Ok (VArr (map column_value cols)) ->
  Forall (fun c => tag_free_name (name c)) cols ->
  exists st1 st2,
    step (StartEdit id data) st = Some st1 /\
    step (AddTable now) st1 = Some st2 /\
    nodes st2
    = VArr (map (updated_node id
                   (VObj [("label", label);
                          ("columns",
                           VArr (map column_value (map strongest_flag cols)));
                          ("color", color);
                          ("onDelete", VFun OnDeleteNode);
                          ("onEdit", VFun OnStartEdit)])) nds) /\
    edges st2 = edges st /\
    editingNodeId st2 = None /\ tableName st2 = VStr [] /\ schemaText st2 = [].
Proof.
  intros Hn Hid Hl Ht Hc Hcols Hfree. do 2 eexists.
  split; [reflexivity|]. unfold onStartEdit.
  rewrite Hl, (schema_text_of_shown cols data Hcols), Hc. cbn [fst].
  assert (Ee : truthy (VStr id) = true).
  { cbn [truthy]. apply negb_true_iff. now apply jsstring_eqb_neq. }
  split.
  - cbn [step]. rewrite (addTable_update now id _ nds); [reflexivity|exact Hn|exact Ht|].
    unfold editing. cbn [editingNodeId set_selectedColor set_schemaText
                           set_tableName set_editingNodeId].
    now rewrite Ee.
  - cbn [nodes edges editingNodeId tableName schemaText set_schemaText
           set_tableName set_editingNodeId set_nodes set_selectedColor].
    unfold newNodeData.
    cbn [tableName schemaText selectedColor set_schemaText set_tableName
           set_editingNodeId set_selectedColor].
    rewrite (parse_columns_shown_strongest cols Hfree). now repeat split.
Qed.

(* ================================================================== *)
(** ** More on renaming a legend item *)

Lemma handleRenameLegend_renamed (id newName : jsstring) (st : AppState)
    (items : list value) :
  array_of items (legend st) ->
  handleRenameLegend id newName st
  = Ok (set_legend (VArr (map (renamed id newName) items)) st,
        [StorageSet "legend"
           (JSON_stringify (VArr (map (renamed id newName) items)) 0)]).
Proof.
  intros Hl. unfold handleRenameLegend. rewrite (proj1 Hl). cbn [array_map].
  rewrite (mapM_Ok _ (renamed id newName)); [reflexivity|].
  intros item Hin. pose proof (array_of_In _ _ _ Hl Hin) as Hnn.
  unfold renamed, has_string.
  destruct (get_defined item "id" Hnn) as [x ->]. reflexivity.
Qed.

Lemma renamed_not_nullish (id newName : jsstring) (item : value) :
  nullish item = false -> nullish (renamed id newName item) = false.
Proof. intros H. unfold renamed. now destruct (has_string "id" id item). Qed.

Lemma renamed_keeps_id (a s b : jsstring) (item : value) :
  has_string "id" b (renamed a s item) = has_string "id" b item.
Proof.
  unfold renamed. destruct (has_string "id" a item) eqn:E; [|reflexivity].
  apply has_id_object in E as [props ->].
  unfold has_string. cbn [own_props].
  now rewrite (proj2 (get_redefined props "name" (VStr s)) "id") by discriminate.
Qed.

Lemma renamed_twice (id s t : jsstring) (item : value) :
  renamed id t (renamed id s item) = renamed id t item.
Proof.
  unfold renamed at 1 3. rewrite renamed_keeps_id.
  destruct (has_string "id" id item) eqn:E.
  - unfold renamed. rewrite E. cbn [own_props].
    unfold object_literal. cbn [fold_left fst snd]. now rewrite set_prop_twice.
  - unfold renamed. now rewrite E.
Qed.

(** X18. Renaming the same legend item twice leaves the legend as the second
    rename alone would: the last name wins.  A rename with an id that no
    item has leaves every item as it is, and still saves the legend. *)
Theorem handleRenameLegend_again (id first second : jsstring) (st : AppState)
    (items : list value) :
  array_of items (legend st) ->
  (exists st1 fx1 st2 fx2 fx,
     handleRenameLegend id first st = Ok (st1, fx1) /\
     handleRenameLegend id second st1 = Ok (st2, fx2) /\
     handleRenameLegend id second st = Ok (st2, fx) /\ fx2 = fx) /\
  (Forall (fun item => get item "id" <> Ok (VStr id)) items ->
   handleRenameLegend id first st
   = Ok (set_legend (VArr items) st,
         [StorageSet "legend" (JSON_stringify (VArr items) 0)])).
Proof.
  intros Hl. split.
  - do 5 eexists.
    split; [apply (handleRenameLegend_renamed id first st items Hl)|].
    assert (Hl1 : array_of (map (renamed id first) items)
                    (VArr (map (renamed id first) items))).
    { split; [reflexivity|]. destruct Hl as [_ H].
      rewrite forallb_forall in *. intros x Hx.
      apply in_map_iff in Hx as (item & <- & Hin).
      apply negb_true_iff, renamed_not_nullish, negb_true_iff. now apply H. }
    split.
    + rewrite (handleRenameLegend_renamed id second
                 (set_legend (VArr (map (renamed id first) items)) st) _ Hl1).
      rewrite map_map, (map_ext _ _ (renamed_twice id first second)).
      reflexivity.
    + split; [|reflexivity].
      now rewrite (handleRenameLegend_renamed id second st items Hl).
  - intros Hno. rewrite (handleRenameLegend_renamed id first st items Hl).
    assert (E : map (renamed id first) items = items).
    { clear Hl. induction Hno as [|item l Hi _ IH]; [reflexivity|].
      cbn [map]. rewrite IH. f_equal. unfold renamed.
      now rewrite (proj2 (has_string_false "id" id item) Hi). }
    now rewrite E.
Qed.

(* ================================================================== *)
(** ** More on the image export *)

Lemma existsb_jsstring_eqb (s : jsstring) (l : list jsstring) :
  existsb (jsstring_eqb s) l = true <-> In s l.
Proof.
  rewrite existsb_exists. split.
  - intros (x & Hx & E). apply jsstring_eqb_eq in E. now subst.
  - intros H. exists s. split; [exact H|apply jsstring_eqb_refl].
Qed.

(** X20. The [filter] option of the export keeps every element but those of
    class [react-flow__controls] or [react-flow__attribution]; a node
    without a class list, such as a text node, is kept. *)
Theorem export_filter_spec (bounds : rect) :
  opt_filter (export_options_for bounds) None = true /\
  forall classes,
    opt_filter (export_options_for bounds) (Some classes) = false
    <-> In (str "react-flow__controls") classes
        \/ In (str "react-flow__attribution") classes.
Proof.
  split; [reflexivity|]. intros classes.
  cbn [opt_filter export_options_for]. unfold export_filter.
  rewrite negb_false_iff. cbn [existsb]. rewrite orb_false_r, orb_true_iff.
  now rewrite !existsb_jsstring_eqb.
Qed.

(** X21. [onClone] on any cloned document writes only to the elements it
    has found.  The panel, when there is one, gets seven assignments in
    the order written; its first child, when it is an element, gets its
    shadow removed and then a border; the viewport, when there is one,
    gets one assignment, the transform that shifts the nodes by the room
    for the legend and the margin.  The callback throws exactly when the
    first child of the panel has no style, after the assignments to the
    panel, and then the viewport is left alone. *)
Theorem export_onClone_frame (bounds : rect) (doc : cloned_document) :
  let made := export_onClone bounds doc in
  assignments_to LegendPanel (fst made)
  = match panel doc with
    | Some _ =>
        [("position", str "absolute"); ("left", str "40px"); ("top", str "40px");
         ("margin", str "0"); ("display", str "block");
         ("visibility", str "visible"); ("zIndex", str "1000")]
    | None => []
    end /\
  assignments_to PanelFirstChild (fst made)
  = match panel doc with
    | Some ElementChild =>
        [("boxShadow", str "none"); ("border", str "1px solid #e2e8f0")]
    | _ => []
    end /\
  assignments_to Viewport (fst made)
  = match viewport doc, panel doc with
    | false, _ | true, Some StylelessChild => []
    | true, _ =>
        [("transform",
          str "translate(" ++ Number_toString (- rect_x bounds + 300)%float
            ++ str "px, " ++ Number_toString (- rect_y bounds + 100)%float
            ++ str "px) scale(1)")]
    end /\
  snd made
  = match panel doc with
    | Some StylelessChild => Some TypeError
    | _ => None
    end.
Proof.
  cbv zeta. destruct doc as [[|] [[| |]|]]; repeat split.
Qed.

(* ================================================================== *)
(** ** The rows of a table node *)

Lemma split_at_last (sep : code_unit) (a x b y : jsstring) :
  ~ In sep x -> ~ In sep y -> a ++ sep :: x = b ++ sep :: y -> x = y.
Proof.
  intros Hx Hy. revert b. induction a as [|c a IH]; intros [|c' b] E;
    cbn [app] in E.
  - now injection E.
  - injection E as -> ->. exfalso. apply Hx, in_elt.
  - injection E as -> <-. exfalso. apply Hy, in_elt.
  - injection E as _ E. now apply IH in E.
Qed.

Lemma key_index (s s' : jsstring) (i j : nat) :
  s ++ str "-" ++ decimal (N.of_nat i) = s' ++ str "-" ++ decimal (N.of_nat j) ->
  i = j.
Proof.
  intros E. change (str "-") with [45%N] in E. cbn [app] in E.
  apply split_at_last in E.
  - now apply decimal_injective, Nat2N.inj in E.
  - intros H. apply decimal_digits in H. lia.
  - intros H. apply decimal_digits in H. lia.
Qed.

Lemma column_rows_from_keys (cols : list value) (index : nat)
    (rows : list column_row) :
  column_rows_from index cols = Ok rows ->
  List.length rows = List.length cols /\
  Forall (fun r => exists s j, index <= j /\
                     row_key r = s ++ str "-" ++ decimal (N.of_nat j)) rows /\
  NoDup (map row_key rows).
Proof.
  revert index rows. induction cols as [|col cols IH]; intros index rows;
    cbn [column_rows_from].
  - intros [= <-]. repeat split; constructor.
  - destruct (column_row_of col index) as [row|] eqn:Er; cbn [bind];
      [|discriminate].
    destruct (column_rows_from (S index) cols) as [rest|] eqn:Ec; cbn [bind];
      [|discriminate].
    intros [= <-]. destruct (IH _ _ Ec) as (Hlen & Hkeys & Hnd).
    assert (Hrow : exists s, row_key row = s ++ str "-" ++ decimal (N.of_nat index)).
    { unfold column_row_of in Er.
      destruct (get col "name") as [nm|]; cbn [bind] in Er; [|discriminate].
      destruct (to_string nm) as [shown|]; cbn [bind] in Er; [|discriminate].
      destruct (get col "isPK"); cbn [bind] in Er; [|discriminate].
      destruct (get col "isCK"); cbn [bind] in Er; [|discriminate].
      destruct (get col "isFK"); cbn [bind] in Er; [|discriminate].
      injection Er as <-. now exists shown. }
    destruct Hrow as [s Hs]. repeat split.
    + cbn [List.length]. now rewrite Hlen.
    + constructor; [exists s, index; split; [lia|exact Hs]|].
      revert Hkeys. apply Forall_impl. intros r (s' & j & Hj & Hr).
      exists s', j. split; [lia|exact Hr].
    + cbn [map]. constructor; [|exact Hnd].
      intros Hin. apply in_map_iff in Hin as (r & Hr & Hin).
      rewrite Forall_forall in Hkeys. destruct (Hkeys r Hin) as (s' & j & Hj & Hk).
      rewrite Hs, Hk in Hr. apply key_index in Hr. lia.
Qed.

(** X17. The rows a table node renders: one per column, and no two rows have
    the same React key, whatever the names of the columns are.  Without
    columns no row is rendered. *)
Theorem column_rows_keys (data : value) :
  (forall rows,
     column_rows data = Ok (Some rows) ->
     NoDup (map row_key rows) /\
     exists cols,
       get data "columns" = Ok (VArr cols) /\
       List.length rows = List.length cols) /\
  (forall columns,
     get data "columns" = Ok columns -> nullish columns = true ->
     column_rows data = Ok None).
Proof.
  split.
  - intros rows. unfold column_rows.
    destruct (get data "columns") as [columns|]; cbn [bind]; [|discriminate].
    destruct (nullish columns); [discriminate|].
    destruct columns as [| | | | | |cols|]; try discriminate.
    destruct (column_rows_from 0 cols) as [rs|] eqn:E; cbn [bind]; [|discriminate].
    intros [= <-]. destruct (column_rows_from_keys _ _ _ E) as (Hlen & _ & Hnd).
    split; [exact Hnd|]. now exists cols.
  - intros columns Hc Hn. unfold column_rows. rewrite Hc. cbn [bind]. now rewrite Hn.
Qed.

(* ================================================================== *)
(** ** More on connecting and on start-up *)

(** X12. The edge made for a connection that is an object keeps every
    property of the connection, source and target among them, except the
    five the editor sets; its type and its style are the same for every
    connection and every relationship type.  A connection that goes
    through changes nothing but the edges. *)
Theorem new_edge_keeps_connection (rel : jsstring) (props : list (string * value))
    (now : N) :
  let e := new_edge rel (VObj props) now in
  (forall k,
     ~ In k ["id"; "type"; "style"; "markerStart"; "markerEnd"] ->
     get e k = get (VObj props) k) /\
  (forall s, has_string "source" s e = has_string "source" s (VObj props)) /\
  (forall s, has_string "target" s e = has_string "target" s (VObj props)) /\
  get e "type" = Ok (VStr (str "smoothstep")) /\
  get e "style" = Ok (VObj [("strokeWidth", VNum 1.5);
                            ("stroke", VStr (str "#3b82f6"))]) /\
  (forall st st',
     onConnect (VObj props) now st = Ok st' ->
     nodes st' = nodes st /\ legend st' = legend st /\
     tableName st' = tableName st /\ schemaText st' = schemaText st /\
     selectedColor st' = selectedColor st /\ relType st' = relType st /\
     editingNodeId st' = editingNodeId st /\ edgeToDelete st' = edgeToDelete st).
Proof.
  cbv zeta.
  assert (F : forall k,
             ~ In k ["id"; "type"; "style"; "markerStart"; "markerEnd"] ->
             get (new_edge rel (VObj props) now) k = get (VObj props) k).
  { intros k Hk. unfold new_edge. cbn [get own_props]. f_equal.
    now rewrite lookup_object_literal_other. }
  split; [exact F|]. split; [|split; [|split; [|split]]].
  - intros s. unfold has_string. rewrite F; [reflexivity|].
    cbn [In]. intuition discriminate.
  - intros s. unfold has_string. rewrite F; [reflexivity|].
    cbn [In]. intuition discriminate.
  - unfold new_edge, object_literal. cbn [fold_left fst snd get].
    rewrite !lookup_set_prop_other by discriminate.
    now rewrite lookup_set_prop_same.
  - unfold new_edge, object_literal. cbn [fold_left fst snd get].
    rewrite !lookup_set_prop_other by discriminate.
    now rewrite lookup_set_prop_same.
  - intros st st'. unfold onConnect.
    destruct (addEdge _ _); cbn [bind]; [|discriminate].
    intros [= <-]. now repeat split.
Qed.

(** X19. The legend at start-up, unlike the nodes and the edges, is whatever
    the saved text parses to, array or not; it is the initial legend when
    nothing is saved, when the saved text is empty and when it does not
    parse.  On a legend that is not an array and has no [map] function a
    rename throws. *)
Theorem initial_legend_spec (localStorage : storage) :
  let st := initialState localStorage in
  (forall text v,
     localStorage "legend" = Some text -> text <> [] ->
     JSON_parse text = Ok v -> legend st = v) /\
  (forall text e,
     localStorage "legend" = Some text ->
     JSON_parse text = Throw e -> legend st = INITIAL_LEGEND) /\
  (localStorage "legend" = None \/ localStorage "legend" = Some [] ->
   legend st = INITIAL_LEGEND) /\
  (forall id newName,
     isArray (legend st) = false ->
     (forall f, get (legend st) "map" <> Ok (VFun f)) ->
     step (RenameLegend id newName) st = None).
Proof.
  cbv zeta. cbn [initialState legend]. unfold initial_legend. repeat split.
  - intros text v -> Ht ->.
    apply jsstring_eqb_neq in Ht. cbn [truthy]. now rewrite Ht.
  - intros text e -> ->. cbn [truthy]. now destruct (negb (jsstring_eqb text [])).
  - now intros [->| ->].
  - intros id newName Harr _. cbn [step]. unfold handleRenameLegend.
    cbn [legend initialState]. fold (initial_legend (localStorage "legend")).
    unfold initial_legend in *.
    destruct (try_catch _ _); try discriminate; reflexivity.
Qed.

(* ================================================================== *)
(** ** The containers and the canvas library *)

(** X23. What the editor itself guarantees of its containers, with
    nothing assumed of the canvas library.  An event handled by the
    editor's own code takes arrays of nodes and of edges to arrays.  An
    event handed to the library (a connection, node changes, edge
    changes) stores in its container exactly what the library returned
    and leaves the other container as it was. *)
Theorem own_events_keep_arrays (ev : event) (st st' : AppState) :
  isArray (nodes st) = true -> isArray (edges st) = true ->
  step ev st = Some st' ->
  match ev with
  | Connect params now =>
      nodes st' = nodes st /\
      addEdge (new_edge (relType st) params now) (edges st) = Ok (edges st')
  | NodesChange changes =>
      edges st' = edges st /\
      applyNodeChanges changes (nodes st) = Ok (nodes st')
  | EdgesChange changes =>
      nodes st' = nodes st /\
      applyEdgeChanges changes (edges st) = Ok (edges st')
  | _ => isArray (nodes st') = true /\ isArray (edges st') = true
  end.
Proof.
  intros An Ae. destruct ev; cbn [step].
  1-5: intros [= <-]; now split.
  - unfold handleRenameLegend.
    destruct (array_map _ (legend st)); cbn [bind next_state]; [|discriminate].
    intros [= <-]. now split.
  - unfold onDeleteNode.
    destruct (array_filter _ (nodes st)) as [nds|] eqn:En; cbn [bind next_state];
      [|discriminate].
    destruct (array_filter _ (edges st)) as [eds|] eqn:Ee; cbn [bind next_state];
      [|discriminate].
    intros [= <-]. cbn [nodes edges set_nodes set_edges].
    split; eapply array_filter_isArray; eassumption.
  - intros [= <-]. destruct (onStartEdit_containers id data st) as [-> ->].
    now split.
  - unfold addTable. destruct (negb (truthy (tableName st)));
      [intros [= <-]; now split|].
    destruct (editing st).
    + destruct (array_map _ (nodes st)) as [nds|] eqn:En; cbn [bind next_state];
        [|discriminate].
      intros [= <-]. cbn. split; [|assumption].
      eapply array_map_isArray; eassumption.
    + destruct (array_concat (nodes st) _) as [nds|] eqn:En; cbn [bind next_state];
        [|discriminate].
      intros [= <-]. cbn. split; [|assumption].
      eapply array_concat_isArray; [exact An|exact En].
  - unfold onConnect.
    destruct (addEdge _ (edges st)) as [eds|] eqn:Ee; cbn [bind next_state];
      [|discriminate].
    intros [= <-]. now split.
  - unfold deleteSelectedEdge.
    destruct (array_filter _ (edges st)) as [eds|] eqn:Ee; cbn [bind next_state];
      [|discriminate].
    intros [= <-]. cbn. split; [assumption|].
    eapply array_filter_isArray; eassumption.
  - unfold onNodesChange.
    destruct (applyNodeChanges _ (nodes st)) as [nds|] eqn:En; cbn [bind next_state];
      [|discriminate].
    intros [= <-]. now split.
  - unfold onEdgesChange.
    destruct (applyEdgeChanges _ (edges st)) as [eds|] eqn:Ee; cbn [bind next_state];
      [|discriminate].
    intros [= <-]. now split.
  - unfold attachHandlers.
    destruct (array_map _ (nodes st)) as [nds|] eqn:En; cbn [bind next_state];
      [|discriminate].
    intros [= <-]. cbn. split; [|assumption].
    eapply array_map_isArray; eassumption.
  - intros [= <-]. now split.
Qed.

End FurtherProperties.

(* ================================================================== *)
(** ** The further properties at work on the example platform *)

Lemma tag_free_name_decide (n : jsstring) :
  tag_free_columnb {| name := n; isPK := false; isFK := false; isCK := false |}
  = true ->
  tag_free_name n.
Proof. intros H. apply tag_free_columnb_spec in H. exact (proj2 H). Qed.

(** A schema text of blanks and commas gives no column. *)
Lemma parse_columns_blank_witness :
  Forall (fun c => is_whitespace c = true \/ c = comma) (str " , ,  ") /\
  parse_columns (str " , ,  ") = [].
Proof.
  assert (H : Forall (fun c => is_whitespace c = true \/ c = comma) (str " , ,  ")).
  { repeat (apply Forall_cons; [first [left; reflexivity|right; reflexivity]|]).
    apply Forall_nil. }
  split; [exact H|exact (parse_columns_blank _ H)].
Defined.

(** Deleting the two tables of the example diagram, in either order. *)
Lemma onDeleteNode_twice_witness :
  array_of [demo_node "node_1" "users"; demo_node "node_2" "orders"]
    (nodes demo_state) /\
  array_of [demo_edge "e-3" "node_1" "node_2"] (edges demo_state) /\
  exists sa sb sab,
    onDeleteNode (str "node_1") demo_state = Ok sa /\
    onDeleteNode (str "node_2") demo_state = Ok sb /\
    onDeleteNode (str "node_1") sa = Ok sa /\
    onDeleteNode (str "node_2") sa = Ok sab /\
    onDeleteNode (str "node_1") sb = Ok sab.
Proof.
  assert (Hn : array_of [demo_node "node_1" "users"; demo_node "node_2" "orders"]
                 (nodes demo_state)) by (split; reflexivity).
  assert (He : array_of [demo_edge "e-3" "node_1" "node_2"] (edges demo_state))
    by (split; reflexivity).
  split; [exact Hn|]. split; [exact He|].
  exact (onDeleteNode_twice (str "node_1") (str "node_2") demo_state _ _
           Hn He).
Defined.

(** The example diagram has its one edge selected for deletion. *)
Lemma deleteSelectedEdge_spec_witness :
  array_of [demo_edge "e-3" "node_1" "node_2"] (edges demo_state) /\
  exists st',
    deleteSelectedEdge demo_state = Ok st' /\
    edges st' = VArr [] /\ edgeToDelete st' = [].
Proof.
  assert (He : array_of [demo_edge "e-3" "node_1" "node_2"] (edges demo_state))
    by (split; reflexivity).
  split; [exact He|].
  destruct (deleteSelectedEdge_spec demo_state _ He)
    as (st' & eds' & E & Ee & Hsel & -> & _).
  exists st'. split; [exact E|]. split; [exact Ee|exact Hsel].
Defined.

(** Columns with two flags each come back with the first one. *)
Lemma schema_text_keeps_first_flag_witness :
  Forall (fun c => tag_free_name (name c)) demo_flagged_columns /\
  exists text,
    schema_text_of (platform := demo_platform) demo_flagged_data = Ok text /\
    parse_columns text
    = map column_value
        [{| name := str "id"; isPK := true; isFK := false; isCK := false |};
         {| name := str "code"; isPK := false; isFK := true; isCK := false |};
         {| name := str "note"; isPK := false; isFK := false; isCK := false |}].
Proof.
  assert (Hfree : Forall (fun c => tag_free_name (name c)) demo_flagged_columns)
    by (repeat constructor; apply tag_free_name_decide; reflexivity).
  split; [exact Hfree|].
  exact (schema_text_keeps_first_flag (platform := demo_platform)
           demo_flagged_columns demo_flagged_data
           Hfree eq_refl).
Defined.

(** The mount effect on the example diagram. *)
Lemma attachHandlers_spec_witness :
  array_of [demo_node "node_1" "users"; demo_node "node_2" "orders"]
    (nodes demo_state) /\
  exists st' n1 n2,
    attachHandlers demo_state = Ok st' /\
    nodes st' = VArr [n1; n2] /\
    has_handlers n1 /\ has_handlers n2 /\
    get n1 "id" = Ok (VStr (str "node_1")) /\
    get n2 "id" = Ok (VStr (str "node_2")).
Proof.
  assert (Hn : array_of [demo_node "node_1" "users"; demo_node "node_2" "orders"]
                 (nodes demo_state)) by (split; reflexivity).
  split; [exact Hn|].
  destruct (attachHandlers_spec demo_state _ Hn) as (st' & nds' & E & En & F & _).
  inversion F as [|n1 n1' l1 l1' (H1 & K1 & _) F1]; subst.
  inversion F1 as [|n2 n2' l2 l2' (H2 & K2 & _) F2]; subst.
  inversion F2; subst.
  exists st', n1', n2'. split; [exact E|]. split; [exact En|].
  split; [exact H1|]. split; [exact H2|]. split.
  - now rewrite (K1 _ "id" eq_refl) by discriminate.
  - now rewrite (K2 _ "id" eq_refl) by discriminate.
Defined.

Lemma attachHandlers_idempotent_witness :
  attachHandlers demo_state = Ok demo_mounted_state /\
  attachHandlers demo_mounted_state
  = Ok demo_mounted_state.
Proof.
  split; [reflexivity|].
  exact (attachHandlers_idempotent
           demo_state demo_mounted_state eq_refl).
Defined.

(** The update of the first table of the mounted example diagram leaves
    the handlers on every node. *)
Lemma handlers_stay_witness :
  (forall changes nds r,
     Forall has_handlers nds ->
     demo_applyChanges changes (VArr nds) = Ok r ->
     exists nds', r = VArr nds' /\ Forall has_handlers nds') /\
  all_have_handlers demo_mounted_state /\
  exists st',
    step (platform := demo_platform) (AddTable 7) demo_mounted_state = Some st' /\
    all_have_handlers st'.
Proof.
  assert (Hm : all_have_handlers demo_mounted_state).
  { eexists. split; [reflexivity|].
    repeat constructor; eexists; repeat split; reflexivity. }
  assert (Hlib : forall changes nds r,
             Forall has_handlers nds ->
             demo_applyChanges changes (VArr nds) = Ok r ->
             exists nds', r = VArr nds' /\ Forall has_handlers nds').
  { intros changes nds r F [= <-]. now exists nds. }
  split; [exact Hlib|]. split; [exact Hm|].
  eexists. split; [reflexivity|].
  exact (handlers_stay (platform := demo_platform) (AddTable 7)
           demo_mounted_state _ Hlib Hm eq_refl).
Defined.

(** The first table of the example diagram is being edited when it is
    deleted. *)
Lemma update_after_delete_witness :
  editing demo_state = Some (str "node_1") /\
  truthy (tableName demo_state) = true /\
  exists st1 st2,
    step (platform := demo_platform) (DeleteNode (str "node_1")) demo_state
    = Some st1 /\
    step (platform := demo_platform) (AddTable 7) st1 = Some st2 /\
    nodes st2 = VArr [demo_node "node_2" "orders"] /\
    editingNodeId st2 = None.
Proof.
  assert (Hn : array_of [demo_node "node_1" "users"; demo_node "node_2" "orders"]
                 (nodes demo_state)) by (split; reflexivity).
  assert (He : array_of [demo_edge "e-3" "node_1" "node_2"] (edges demo_state))
    by (split; reflexivity).
  split; [reflexivity|]. split; [reflexivity|].
  destruct (update_after_delete (platform := demo_platform) (str "node_1") 7
              demo_state _ _ Hn He eq_refl eq_refl)
    as (st1 & st2 & E1 & _ & E2 & En & _ & Ed & _).
  exists st1, st2. split; [exact E1|]. split; [exact E2|]. split; [|exact Ed].
  rewrite En. cbn [step next_state] in E1.
  rewrite (onDeleteNode_filtered (str "node_1") demo_state _ _
             Hn He) in E1.
  injection E1 as <-. reflexivity.
Defined.

(** A table added to the example diagram and deleted again. *)
Lemma add_then_delete_witness :
  let st := set_editingNodeId None demo_state in
  exists st1 st2,
    step (platform := demo_platform) (AddTable 7) st = Some st1 /\
    step (platform := demo_platform) (DeleteNode (str "node_7")) st1 = Some st2 /\
    nodes st2 = nodes st /\ edges st2 = edges st.
Proof.
  assert (Hn : array_of [demo_node "node_1" "users"; demo_node "node_2" "orders"]
                 (nodes demo_state)) by (split; reflexivity).
  assert (He : array_of [demo_edge "e-3" "node_1" "node_2"] (edges demo_state))
    by (split; reflexivity).
  cbv zeta.
  destruct (add_then_delete (platform := demo_platform) 7
              (set_editingNodeId None demo_state) _ _
              Hn He eq_refl eq_refl)
    as (st1 & st2 & E1 & E2 & _ & _ & Hnodes & Hedges).
  exists st1, st2. split; [exact E1|]. split; [exact E2|]. split.
  - apply Hnodes. repeat constructor; discriminate.
  - apply Hedges. repeat constructor; discriminate.
Defined.

(** The second table of the example diagram gets the flagged columns'
    data and is updated with the form left as it was filled. *)
Lemma edit_then_update_spec_witness :
  exists st1 st2,
    step (platform := demo_platform) (StartEdit (str "node_2") demo_flagged_data)
      demo_state = Some st1 /\
    step (platform := demo_platform) (AddTable 7) st1 = Some st2 /\
    (exists n2,
       nodes st2 = VArr [demo_node "node_1" "users"; n2] /\
       bind (get n2 "data") (fun d => get d "columns")
       = Ok (VArr (map column_value (map strongest_flag demo_flagged_columns)))) /\
    editingNodeId st2 = None.
Proof.
  assert (Hfree : Forall (fun c => tag_free_name (name c)) demo_flagged_columns)
    by (repeat constructor; apply tag_free_name_decide; reflexivity).
  assert (Hn : array_of [demo_node "node_1" "users"; demo_node "node_2" "orders"]
                 (nodes demo_state)) by (split; reflexivity).
  assert (Hid : str "node_2" <> []) by discriminate.
  destruct (edit_then_update_spec (platform := demo_platform) (str "node_2")
              demo_flagged_data (VStr (str "orders")) (VStr (str "#94a3b8"))
              demo_flagged_columns 7 demo_state _
              Hn Hid eq_refl eq_refl eq_refl eq_refl
              Hfree)
    as (st1 & st2 & E1 & E2 & En & _ & Ed & _).
  exists st1, st2. split; [exact E1|]. split; [exact E2|]. split; [|exact Ed].
  eexists. split; [rewrite En; reflexivity|reflexivity].
Defined.

(** The first entry of the shipped legend renamed twice. *)
Lemma handleRenameLegend_again_witness :
  (exists items, array_of items (legend demo_state)) /\
  exists st1 fx1 st2 fx2,
    handleRenameLegend (platform := demo_platform) (str "1") (str "Reports")
      demo_state = Ok (st1, fx1) /\
    handleRenameLegend (platform := demo_platform) (str "1") (str "Marts") st1
    = Ok (st2, fx2) /\
    handleRenameLegend (platform := demo_platform) (str "1") (str "Marts")
      demo_state = Ok (st2, fx2).
Proof.
  assert (Hl : array_of
                 match INITIAL_LEGEND with VArr items => items | _ => [] end
                 (legend demo_state)) by (split; reflexivity).
  split; [eexists; exact Hl|].
  destruct (proj1 (handleRenameLegend_again (platform := demo_platform)
                     (str "1") (str "Reports") (str "Marts") demo_state _
                     Hl))
    as (st1 & fx1 & st2 & fx2 & fx & E1 & E2 & E3 & <-).
  exists st1, fx1, st2, fx2. auto.
Defined.

(** Deleting a table of the example diagram leaves arrays. *)
Lemma own_events_keep_arrays_witness :
  isArray (nodes demo_state) = true /\
  isArray (edges demo_state) = true /\
  exists st',
    step (platform := demo_platform) (DeleteNode (str "node_1")) demo_state
    = Some st' /\
    isArray (nodes st') = true /\ isArray (edges st') = true.
Proof.
  split; [reflexivity|]. split; [reflexivity|].
  eexists. split; [reflexivity|].
  exact (own_events_keep_arrays (platform := demo_platform)
           (DeleteNode (str "node_1")) demo_state _ eq_refl eq_refl eq_refl).
Defined.
